(** * Pingdom redirect checker: a shallow embedding and its properties

    The development follows [Pingdom_Redirect_Checker_2.1.py]: the probe
    call ([perform_pingdom_check]), the DNS inspection and the redirect
    trace ([check_redirects_and_dns]), the sequential lane
    ([process_hostname_batch]) and the partition and merge of [main].

    Network and resolver replies are read from an explicit [World]; Python
    exceptions are values of [exn] carried by [result]. *)

From Equations Require Import Equations.
From Equations.Prop Require Import Logic.
From Stdlib Require Import List Arith ZArith Lia Bool Ascii String.
From Stdlib Require Import Permutation DecimalString.
Import ListNotations.

Local Open Scope string_scope.
Set Warnings "-register-all".

(** ** Python values, exceptions and results *)

(** The values [response.json()] can decode to, and the cells of a row. *)
Inductive pyval : Type :=
| PNone
| PBool (b : bool)
| PInt (z : Z)
| PStr (s : string)
| PList (l : list pyval)
| PDict (kv : list (string * pyval)).

(** The exception classes the program can meet.  [RequestException] is the
    base class of everything [requests] raises (time-outs, connection
    errors, [raise_for_status], undecodable JSON); [AttributeError] is what
    a method call on a value without that method raises. *)
Inductive exn : Type :=
| RequestException (msg : string)
| AttributeError (msg : string).

(** [str(e)], as an f-string renders an exception. *)
Definition str_exn (e : exn) : string :=
  match e with
  | RequestException m => m
  | AttributeError m => m
  end.

Inductive result (A : Type) : Type :=
| Ok (a : A)
| Raise (e : exn).
Arguments Ok {A} a.
Arguments Raise {A} e.

Definition bind {A B : Type} (m : result A) (k : A -> result B) : result B :=
  match m with
  | Ok a => k a
  | Raise e => Raise e
  end.

Notation "x <- m ;; k" := (bind m (fun x => k))
  (at level 61, m at next level, right associativity).

(** [try: body  except requests.exceptions.RequestException as e: handler]:
    only that class is caught, any other exception keeps propagating. *)
Definition except_RequestException {A : Type}
  (body : result A) (handler : string -> result A) : result A :=
  match body with
  | Raise (RequestException m) => handler m
  | other => other
  end.


(** Truth value of a Python object, as [if result_data:] tests it. *)
Definition truthy (v : pyval) : bool :=
  match v with
  | PNone => false
  | PBool b => b
  | PInt z => negb (Z.eqb z 0)
  | PStr s => negb (String.eqb s "")
  | PList l => match l with [] => false | _ => true end
  | PDict kv => match kv with [] => false | _ => true end
  end.

Fixpoint assoc (kv : list (string * pyval)) (key : string) : option pyval :=
  match kv with
  | [] => None
  | (k, v) :: rest => if String.eqb k key then Some v else assoc rest key
  end.

(** [obj.get(key, default)]: defined on dictionaries only. *)
Definition py_get (obj : pyval) (key : string) (default : pyval) : result pyval :=
  match obj with
  | PDict kv =>
      Ok (match assoc kv key with Some v => v | None => default end)
  | _ => Raise (AttributeError "object has no attribute 'get'")
  end.

(** [f"{n}"] for an integer. *)
Definition str_int (n : Z) : string := NilZero.string_of_int (Z.to_int n).

(** [sep.join(parts)]. *)
Definition join (sep : string) (parts : list string) : string :=
  String.concat sep parts.

(** [s.startswith(p)]. *)
Definition startswith (s p : string) : bool := String.prefix p s.

(** ** Replies of the outside world *)

(** A [requests.Response] as far as the tracer reads it: the status code, the
    [Location] header if there is one, and the URL of the response. *)
Record Response : Type := mkResponse {
  status_code : Z;
  location_header : option string;
  url : string
}.

(** [Response.is_redirect] of the [requests] library: a [Location] header is
    present and the status is one of the redirect codes. *)
Definition REDIRECT_STATI : list Z := [301; 302; 303; 307; 308]%Z.

Definition is_redirect (r : Response) : bool :=
  match location_header r with
  | Some _ => existsb (Z.eqb (status_code r)) REDIRECT_STATI
  | None => false
  end.

Inductive http_outcome : Type :=
| HttpResponse (r : Response)
| HttpFail (msg : string).          (* a RequestException *)

Inductive probe_outcome : Type :=
| ProbeJson (body : pyval)          (* 2xx reply, decoded body *)
| ProbeFail (msg : string).         (* a RequestException *)

Inductive dns_outcome : Type :=
| DnsAnswer (records : list string) (* [to_text] of each rdata, maybe none *)
| DnsFail (msg : string).           (* any exception of the resolver *)

Inductive rdtype : Type := RA | RCNAME | RNS.

(** One entry of the check list: [check.get('id')], [check.get('name')] and
    [check.get('hostname')]. *)
Record HostCheck : Type := mkHostCheck {
  check_id : Z;
  check_name : string;
  hostname : string
}.

Inductive checks_outcome : Type :=
| ChecksJson (checks : list HostCheck)
| ChecksFail (msg : string).        (* a RequestException *)

Record World : Type := mkWorld {
  (* reply to the single-probe API call for a target *)
  probe_reply : string -> string -> probe_outcome;
  (* [dns.resolver.Resolver()]: [Some msg] when the constructor raises *)
  resolver_init : option string;
  dns_reply : string -> rdtype -> dns_outcome;
  (* reply to a GET, given the URLs this session requested before *)
  http_reply : list string -> string -> http_outcome;
  (* when the future submitted i-th completes *)
  finish_time : nat -> nat;
  (* the check list of the account: decoded entries, or a RequestException *)
  checks_reply : string -> checks_outcome;
  (* [datetime.now(timezone.utc)], formatted *)
  now : string
}.

(** ** The redirect tracer (lines 79-110 of the script) *)

(** A [requests.Session] as the tracer uses it: the requests issued so far,
    oldest first, each with the reply it got. *)
Definition session : Type := list (string * http_outcome).

(** [session.get(target, allow_redirects=False, timeout=20)]. *)
Definition session_get (w : World) (s : session) (target : string)
  : result Response * session :=
  let out := http_reply w (map fst s) target in
  (match out with
   | HttpResponse r => Ok r
   | HttpFail m => Raise (RequestException m)
   end,
   (s ++ [(target, out)])%list).

(** Lines 92-96: a [Location] that carries no http or https scheme is read
    relative to the host under test. *)
Definition resolve_location (hostname location : string) : string :=
  if negb (startswith location "http://") && negb (startswith location "https://")
  then
    if startswith location "/"
    then "http://" ++ hostname ++ location
    else "http://" ++ hostname ++ "/" ++ location
  else location.

(** [f"{status_code} => {location}"]. *)
Definition hop_entry (status : Z) (location : string) : string :=
  str_int status ++ " => " ++ location.

(** Lines 90-101: [while response.is_redirect and redirect_count < 5].  The
    loop returns the last response, the entries appended and the counter. *)
Equations? while_redirect (w : World) (hostname : string) (s : session)
  (response : Response) (redirects : list string) (redirect_count : nat)
  : result (Response * list string * nat) * session
  by wf (5 - redirect_count) lt :=
  while_redirect w hostname s response redirects redirect_count
    with inspect (is_redirect response && (redirect_count <? 5)%nat) := {
    | exist _ true Hcond =>
        match location_header response with
        | None =>
            (Raise (AttributeError "'NoneType' object has no attribute 'startswith'"), s)
        | Some location =>
            let location := resolve_location hostname location in
            let redirects :=
              (redirects ++ [hop_entry (status_code response) location])%list in
            match session_get w s location with
            | (Ok response', s') =>
                while_redirect w hostname s' response' redirects (S redirect_count)
            | (Raise e, s') => (Raise e, s')
            end
        end
    | exist _ false _ => (Ok (response, redirects, redirect_count), s) }.
Proof.
  apply andb_prop in Hcond. destruct Hcond as [_ Hlt].
  apply Nat.ltb_lt in Hlt.
  do 5 (destruct redirect_count as [|redirect_count]; [lia|]). lia.
Qed.

(** Lines 81-107, the body of the [try]. *)
Definition trace_body (w : World) (hostname : string) : result string * session :=
  match session_get w [] ("http://" ++ hostname) with
  | (Raise e, s) => (Raise e, s)
  | (Ok response, s) =>
      if Z.eqb (status_code response) 200 then
        (Ok ("200 => " ++ url response ++ " (No redirection)"), s)
      else if is_redirect response then
        match while_redirect w hostname s response [] 0 with
        | (Raise e, s') => (Raise e, s')
        | (Ok (response', redirects, _), s') =>
            (Ok (join " | "
                   (redirects ++ [hop_entry (status_code response') (url response')])%list),
             s')
        end
      else (Ok "No Redirect", s)
  end.

(** Lines 80-110: the [try] with its [except RequestException].  Beside the
    value stored under ['Redirect Path'] the session log is returned, so that
    the requests issued can be counted. *)
Definition trace_redirects (w : World) (hostname : string) : result string * session :=
  let '(body, s) := trace_body w hostname in
  (except_RequestException body (fun e => Ok ("Request Failed: " ++ e)), s).

(** ** The DNS inspection (lines 50-77) *)

Definition rdtype_name (t : rdtype) : string :=
  match t with
  | RA => "A"
  | RCNAME => "CNAME"
  | RNS => "NS"
  end.

(** One inner [try]: [resolver.resolve(hostname, t, raise_on_no_answer=False)],
    the joined texts when the answer is not empty, and the handler of
    [except Exception], which catches whatever the query raises. *)
Definition dns_field (w : World) (hostname : string) (t : rdtype) : string :=
  match dns_reply w hostname t with
  | DnsAnswer answers =>
      match answers with
      | [] => "No " ++ rdtype_name t ++ " Records Found"
      | _ => join ", " answers
      end
  | DnsFail e => "DNS Lookup " ++ rdtype_name t ++ " Failed: " ++ e
  end.

(** The [result] dictionary of [check_redirects_and_dns]; its four keys are
    fixed, so it is a record. *)
Record DnsRedirect : Type := mkDnsRedirect {
  A_Records : string;
  CNAME_Records : string;
  NS_Records : string;
  Redirect_Path : string
}.

(** Lines 52-77: the outer [try] builds the resolver; when that raises, the
    outer handler writes ['A Records'] and the other two keys keep the empty
    string they were created with. *)
Definition dns_records (w : World) (hostname : string) (result : DnsRedirect)
  : DnsRedirect :=
  match resolver_init w with
  | None =>
      mkDnsRedirect (dns_field w hostname RA) (dns_field w hostname RCNAME)
        (dns_field w hostname RNS) (Redirect_Path result)
  | Some e =>
      mkDnsRedirect ("DNS Lookup Failed: " ++ e) (CNAME_Records result)
        (NS_Records result) (Redirect_Path result)
  end.

(** [check_redirects_and_dns(hostname)].  An exception other than
    [RequestException] in the redirect part would leave the function. *)
Definition check_redirects_and_dns (w : World) (hostname : string)
  : result (string * DnsRedirect) :=
  let result := mkDnsRedirect "" "" "" "" in
  let result := dns_records w hostname result in
  path <- fst (trace_redirects w hostname) ;;
  Ok (hostname,
      mkDnsRedirect (A_Records result) (CNAME_Records result) (NS_Records result) path).

(** ** The probe call (lines 27-46) *)

(** [requests.get(url, headers, timeout=30)], [raise_for_status()] and
    [response.json()]. *)
Definition probe_json (w : World) (api_key target_url : string) : result pyval :=
  match probe_reply w api_key target_url with
  | ProbeJson body => Ok body
  | ProbeFail m => Raise (RequestException m)
  end.

Definition row : Type := list pyval.

Definition perform_pingdom_check (w : World) (api_key : string) (check_id : Z)
  (check_name target_url : string) : result (string * row) :=
  except_RequestException
    (result <- probe_json w api_key target_url ;;
     result_data <- py_get result "result" PNone ;;
     if truthy result_data then
       status <- py_get result_data "status" (PStr "N/A") ;;
       probedesc <- py_get result_data "probedesc" (PStr "N/A") ;;
       statusdesc <- py_get result_data "statusdesc" (PStr "N/A") ;;
       statusdesclong <- py_get result_data "statusdesclong" (PStr "N/A") ;;
       Ok (target_url,
           [PStr check_name; PStr target_url; status; probedesc; statusdesc;
            statusdesclong; PInt check_id])
     else
       Ok (target_url,
           [PStr check_name; PStr target_url; PStr "No result returned";
            PStr "N/A"; PStr "N/A"; PStr "N/A"; PInt check_id]))
    (fun e =>
       Ok (target_url,
           [PStr check_name; PStr target_url; PStr ("Error: " ++ e);
            PStr "N/A"; PStr "N/A"; PStr "N/A"; PInt check_id])).

(** ** One lane (lines 115-135) *)

(** Lines 118-132: the calls made for one check and the row they give. *)
Definition combined_result (w : World) (api_key : string) (check : HostCheck)
  : result row :=
  let check_id := check_id check in
  let check_name := check_name check in
  let hostname := hostname check in
  pingdom_result <- perform_pingdom_check w api_key check_id check_name hostname ;;
  dns_redirect_result <- check_redirects_and_dns w hostname ;;
  Ok (snd pingdom_result ++
      [PStr hostname;
       PStr (A_Records (snd dns_redirect_result));
       PStr (CNAME_Records (snd dns_redirect_result));
       PStr (NS_Records (snd dns_redirect_result));
       PStr (Redirect_Path (snd dns_redirect_result))])%list.

(** The body of the [for] loop: the row of one check, appended to [results].
    The pause after each check has no effect on the rows. *)
Definition process_check (w : World) (api_key : string) (results : list row)
  (check : HostCheck) : result (list row) :=
  combined_result <- combined_result w api_key check ;;
  Ok (results ++ [combined_result])%list.

(** A [for] loop over a list whose body may raise. *)
Fixpoint for_each {S A : Type} (body : S -> A -> result S) (l : list A) (s : S)
  : result S :=
  match l with
  | [] => Ok s
  | a :: rest => s' <- body s a ;; for_each body rest s'
  end.

Definition process_hostname_batch (w : World) (api_key : string)
  (batch : list HostCheck) : result (list row) :=
  for_each (process_check w api_key) batch [].

(** ** Partition, lanes and merge ([main], lines 138-175) *)

(** [range(0, stop, step)] for a positive [step]. *)
Definition range_step (stop step : nat) : list nat :=
  map (fun k => k * step) (seq 0 ((stop + step - 1) / step)).

(** The slice [l[i:j]]. *)
Definition slice {A : Type} (l : list A) (i j : nat) : list A :=
  firstn (j - i) (skipn i l).

(** Lines 150-151 for a number of workers: the batch size and the batches. *)
Definition batch_size (max_workers : nat) (filtered_checks : list HostCheck) : nat :=
  List.length filtered_checks / max_workers + 1.

Definition make_batches (max_workers : nat) (filtered_checks : list HostCheck)
  : list (list HostCheck) :=
  let batch_size := batch_size max_workers filtered_checks in
  map (fun i => slice filtered_checks i (i + batch_size))
      (range_step (List.length filtered_checks) batch_size).

Definition max_workers : nat := 16.

(** [as_completed(futures)]: the futures in the order in which they finish,
    the [i]-th submitted one finishing at [finish i]. *)
Fixpoint insert_by {A : Type} (finish : nat -> nat) (x : nat * A)
  (l : list (nat * A)) : list (nat * A) :=
  match l with
  | [] => [x]
  | y :: rest =>
      if (finish (fst x) <=? finish (fst y))%nat then x :: l
      else y :: insert_by finish x rest
  end.

Definition as_completed {A : Type} (finish : nat -> nat) (futures : list A)
  : list A :=
  map snd
    (fold_right (insert_by finish) []
       (combine (seq 0 (List.length futures)) futures)).

(** Lines 159-161: [future.result()] re-raises what the lane raised, else the
    rows of the lane extend [results]. *)
Definition collect (results : list row) (future : result (list row))
  : result (list row) :=
  batch_results <- future ;;
  Ok (results ++ batch_results)%list.

(** Lines 149-161: what [main] does with the filtered checks. *)
Definition run_lanes (w : World) (api_key : string)
  (filtered_checks : list HostCheck) : result (list row) :=
  let batches := make_batches max_workers filtered_checks in
  let futures := map (process_hostname_batch w api_key) batches in
  for_each collect (as_completed (finish_time w) futures) [].

(** [retrieve_pingdom_checks(api_key)]: what it prints and what it returns. *)
Definition retrieve_pingdom_checks (w : World) (api_key : string)
  : list string * list HostCheck :=
  match checks_reply w api_key with
  | ChecksJson checks => ([], checks)
  | ChecksFail e => (["Failed to retrieve Pingdom checks: " ++ e], [])
  end.

Definition csv_header : row :=
  map PStr
    ["Check Name"; "Target URL"; "Status"; "Probe Description";
     "Status Description"; "Long Status Description"; "Pingdom Check ID";
     "Hostname"; "A Records"; "CNAME Records"; "NS Records"; "Redirect Path"].

(** What a run of [main] leaves behind: the lines printed, the number of
    batches submitted to the executor, and the file written, if any. *)
Record Outcome : Type := mkOutcome {
  printed : list string;
  submitted : nat;
  csv_file : option (string * list row)
}.

Definition main (w : World) (api_key : string) (target_urls : list string)
  : result Outcome :=
  let '(out, checks) := retrieve_pingdom_checks w api_key in
  match checks with
  | [] => Ok (mkOutcome (out ++ ["No Pingdom checks found."])%list 0 None)
  | _ =>
      let filtered_checks :=
        filter (fun check => existsb (String.eqb (hostname check)) target_urls)
               checks in
      results <- run_lanes w api_key filtered_checks ;;
      let filename := "Hostname_results_" ++ now w ++ "_UTC.csv" in
      let message := "Results have been written to " ++ filename in
      Ok (mkOutcome
            (out ++ [message])%list
            (List.length (make_batches max_workers filtered_checks))
            (Some (filename, csv_header :: results)))
  end.

(** ** The command line (lines 178-184) *)

(** [c.isspace()], the characters of a string read as code points below 256. *)
Definition py_isspace (c : ascii) : bool :=
  let n := nat_of_ascii c in
  ((9 <=? n) && (n <=? 13) || (28 <=? n) && (n <=? 32) || (n =? 133) || (n =? 160))%nat.

Fixpoint lstrip (s : string) : string :=
  match s with
  | EmptyString => EmptyString
  | String c rest => if py_isspace c then lstrip rest else s
  end.

Fixpoint rstrip (s : string) : string :=
  match s with
  | EmptyString => EmptyString
  | String c rest =>
      match rstrip rest with
      | EmptyString => if py_isspace c then EmptyString else String c EmptyString
      | kept => String c kept
      end
  end.

(** [s.strip()]. *)
Definition strip (s : string) : string := rstrip (lstrip s).

(** [s.split(sep)] for a separator of one character. *)
Fixpoint split_char (sep : ascii) (s : string) : list string :=
  match s with
  | EmptyString => [EmptyString]
  | String c rest =>
      if Ascii.eqb c sep then EmptyString :: split_char sep rest
      else
        match split_char sep rest with
        | piece :: pieces => String c piece :: pieces
        | [] => [String c EmptyString]
        end
  end.

(** Line 181: [[url.strip() for url in target_urls_input.split(",")]]. *)
Definition parse_target_urls (target_urls_input : string) : list string :=
  map strip (split_char "," target_urls_input).

(** ** Vocabulary of the statements *)

(** The location a redirect response sends the tracer to, and the entry the
    loop appends for it. *)
Definition hop_target (hostname : string) (r : Response) : string :=
  resolve_location hostname
    (match location_header r with Some location => location | None => "" end).

Definition hop_of (hostname : string) (r : Response) : string :=
  hop_entry (status_code r) (hop_target hostname r).

Definition redirecting (r : Response) : Prop := is_redirect r = true.

Definition redirect_outcome (o : http_outcome) : bool :=
  match o with
  | HttpResponse r => is_redirect r
  | HttpFail _ => false
  end.

(** A 2xx status. *)
Definition is_success (r : Response) : bool :=
  ((200 <=? status_code r) && (status_code r <=? 299))%Z.

(** What holds each time the loop condition is tested: the log consists of
    the responses followed so far, all of them redirects, and then the
    current response; each followed response was asked for at the target of
    the one before, and one entry was appended per followed response. *)
Definition loop_inv (hostname : string) (s : session) (r : Response)
  (reds : list string) (c : nat) : Prop :=
  exists rs,
    map snd s = map HttpResponse (rs ++ [r])%list /\
    map fst s = ("http://" ++ hostname) :: map (hop_target hostname) rs /\
    Forall redirecting rs /\
    reds = map (hop_of hostname) rs /\
    c = List.length rs.

(** What holds when the loop is left, normally or by an exception. *)
Definition loop_post (hostname : string) (r0 : Response) (c0 : nat)
  (out : result (Response * list string * nat) * session) : Prop :=
  match out with
  | (Ok (r', reds', c'), s') =>
      loop_inv hostname s' r' reds' c' /\ c0 <= c' <= 5 /\
      (is_redirect r' = false \/ c' = 5) /\
      (is_redirect r0 = true -> c0 < 5 -> c0 < c')
  | (Raise e, s') =>
      exists rs m,
        e = RequestException m /\
        map snd s' = (map HttpResponse rs ++ [HttpFail m])%list /\
        map fst s' = ("http://" ++ hostname) :: map (hop_target hostname) rs /\
        Forall redirecting rs /\ c0 < List.length rs <= 5
  end.

(** Every run of the tracer ends in one of four ways; each fixes both the
    value stored under ['Redirect Path'] and the replies in the session log. *)
Inductive trace_case (hostname : string) : result string -> session -> Prop :=
| trace_failed (rs : list Response) (m : string) (log : session) :
    map snd log = (map HttpResponse rs ++ [HttpFail m])%list ->
    map fst log = ("http://" ++ hostname) :: map (hop_target hostname) rs ->
    Forall redirecting rs ->
    List.length rs <= 5 ->
    trace_case hostname (Ok ("Request Failed: " ++ m)) log
| trace_plain (r : Response) (log : session) :
    log = [("http://" ++ hostname, HttpResponse r)] ->
    status_code r = 200%Z ->
    trace_case hostname (Ok ("200 => " ++ url r ++ " (No redirection)")) log
| trace_other (r : Response) (log : session) :
    log = [("http://" ++ hostname, HttpResponse r)] ->
    status_code r <> 200%Z ->
    is_redirect r = false ->
    trace_case hostname (Ok "No Redirect") log
| trace_chain (rs : list Response) (r : Response) (log : session) :
    map snd log = map HttpResponse (rs ++ [r])%list ->
    map fst log = ("http://" ++ hostname) :: map (hop_target hostname) rs ->
    Forall redirecting rs ->
    1 <= List.length rs <= 5 ->
    is_redirect r = false \/ List.length rs = 5 ->
    trace_case hostname
      (Ok (join " | "
             (map (hop_of hostname) rs ++ [hop_entry (status_code r) (url r)])%list))
      log.

(** The shape of a probe reply under which [perform_pingdom_check] finds the
    methods it calls: a request failure, or a body that is an object whose
    ["result"] member is absent, falsy or an object. *)
Definition is_dict (v : pyval) : bool :=
  match v with
  | PDict _ => true
  | _ => false
  end.

Definition probe_body_ok (body : pyval) : bool :=
  match body with
  | PDict kv =>
      match assoc kv "result" with
      | Some v => negb (truthy v) || is_dict v
      | None => true
      end
  | _ => false
  end.

Definition probe_ok (o : probe_outcome) : bool :=
  match o with
  | ProbeJson body => probe_body_ok body
  | ProbeFail _ => true
  end.

(** Every check of a list gets a probe reply of that shape. *)
Definition checks_ok (w : World) (api_key : string) (checks : list HostCheck)
  : Prop :=
  forall check, In check checks ->
                probe_ok (probe_reply w api_key (hostname check)) = true.

(** The row of a check, where there is one. *)
Definition row_of (w : World) (api_key : string) (check : HostCheck) : row :=
  match combined_result w api_key check with
  | Ok r => r
  | Raise _ => []
  end.

(** How often a character occurs in a string. *)
Fixpoint occurrences (c : ascii) (s : string) : nat :=
  match s with
  | EmptyString => 0
  | String a rest => (if Ascii.eqb a c then 1 else 0) + occurrences c rest
  end.

(** Whether the first, and whether the last character of a string is white
    space. *)
Definition starts_with_space (s : string) : bool :=
  match s with
  | EmptyString => false
  | String c _ => py_isspace c
  end.

Fixpoint ends_with_space (s : string) : bool :=
  match s with
  | EmptyString => false
  | String c EmptyString => py_isspace c
  | String _ rest => ends_with_space rest
  end.

(** [result_data.get(key, 'N/A')] on the members of a result object. *)
Definition field_or_NA (kv : list (string * pyval)) (key : string) : pyval :=
  match assoc kv key with
  | Some v => v
  | None => PStr "N/A"
  end.

(** Each reply in a log is the one the world gives to that request after the
    requests before it. *)
Definition log_consistent (w : World) (log : session) : Prop :=
  forall i target reply,
    nth_error log i = Some (target, reply) ->
    reply = http_reply w (map fst (firstn i log)) target.

(** The three forms of a DNS field, by the reply to the query of its type. *)
Inductive dns_form (t : rdtype) : dns_outcome -> string -> Prop :=
| dns_joined (records : list string) :
    records <> [] ->
    dns_form t (DnsAnswer records) (join ", " records)
| dns_none :
    dns_form t (DnsAnswer []) ("No " ++ rdtype_name t ++ " Records Found")
| dns_error (e : string) :
    dns_form t (DnsFail e) ("DNS Lookup " ++ rdtype_name t ++ " Failed: " ++ e).

Definition field_of (t : rdtype) (d : DnsRedirect) : string :=
  match t with
  | RA => A_Records d
  | RCNAME => CNAME_Records d
  | RNS => NS_Records d
  end.

(** ** Concrete worlds *)

(** Replies looked up by URL; an unknown URL refuses the connection. *)
Fixpoint reply_of (table : list (string * http_outcome)) (target : string)
  : http_outcome :=
  match table with
  | [] => HttpFail "connection refused"
  | (u, o) :: rest => if String.eqb u target then o else reply_of rest target
  end.

Definition sample_world (probe : probe_outcome) (resolver : option string)
  (dns : rdtype -> dns_outcome) (table : list (string * http_outcome)) : World :=
  mkWorld (fun _ _ => probe) resolver (fun _ => dns) (fun _ => reply_of table)
    (fun i => i) (fun _ => ChecksFail "not used") "2024-01-01_00-00-00".

Definition probe_up : probe_outcome :=
  ProbeJson (PDict [("result", PDict [("status", PStr "up"); ("probedesc", PStr "EU");
                                     ("statusdesc", PStr "OK");
                                     ("statusdesclong", PStr "OK")])]).

Definition dns_plain (t : rdtype) : dns_outcome :=
  match t with
  | RA => DnsAnswer ["93.184.216.34"]
  | RCNAME => DnsAnswer []
  | RNS => DnsAnswer ["a.iana-servers.net."; "b.iana-servers.net."]
  end.

(** [example.com] answers 200. *)
Definition world_200 : World :=
  sample_world probe_up None dns_plain
    [("http://example.com",
      HttpResponse (mkResponse 200 None "http://example.com/"))].

(** [example.com] answers 204, a success that is no redirect. *)
Definition world_204_first : Response :=
  mkResponse 204 None "http://example.com/".

Definition world_204 : World :=
  sample_world probe_up None dns_plain
    [("http://example.com", HttpResponse world_204_first)].

(** [example.com] redirects to [https://other.com/], which answers 200. *)
Definition world_301_first : Response :=
  mkResponse 301 (Some "https://other.com/") "http://example.com/".

Definition world_301 : World :=
  sample_world probe_up None dns_plain
    [("http://example.com", HttpResponse world_301_first);
     ("https://other.com/",
      HttpResponse (mkResponse 200 None "https://other.com/"))].

(** [example.com] redirects to [/login], and that request times out. *)
Definition world_timeout : World :=
  sample_world probe_up None dns_plain
    [("http://example.com",
      HttpResponse (mkResponse 302 (Some "/login") "http://example.com/"));
     ("http://example.com/login", HttpFail "Read timed out.")].



(** The probe API times out. *)
Definition world_probe_timeout : World :=
  sample_world (ProbeFail "Read timed out. (read timeout=30)") None dns_plain
    [("http://example.com",
      HttpResponse (mkResponse 200 None "http://example.com/"))].

(** No resolver can be built. *)
Definition world_no_resolver : World :=
  sample_world probe_up (Some "Resolver configuration could not be read") dns_plain
    [("http://example.com",
      HttpResponse (mkResponse 200 None "http://example.com/"))].

(** The A query fails, the CNAME query has an answer. *)
Definition dns_mixed (t : rdtype) : dns_outcome :=
  match t with
  | RA => DnsFail "The DNS operation timed out."
  | RCNAME => DnsAnswer ["edge.example.net."]
  | RNS => DnsAnswer []
  end.

Definition world_dns_mixed : World :=
  sample_world probe_up None dns_mixed
    [("http://example.com",
      HttpResponse (mkResponse 200 None "http://example.com/"))].

(** The account has no checks. *)
Definition world_no_checks : World :=
  mkWorld (fun _ _ => probe_up) None (fun _ => dns_plain) (fun _ => reply_of [])
    (fun i => i) (fun _ => ChecksJson []) "2024-01-01_00-00-00".

Definition example_check : HostCheck := mkHostCheck 101 "Example" "example.com".

Definition three_checks : list HostCheck :=
  [mkHostCheck 1 "one" "one.example.com";
   mkHostCheck 2 "two" "two.example.com";
   mkHostCheck 3 "three" "three.example.com"].

(** Every request gets a redirect to [/next]. *)
Definition world_loop : World :=
  mkWorld (fun _ _ => probe_up) None (fun _ => dns_plain)
    (fun _ target => HttpResponse (mkResponse 301 (Some "/next") target))
    (fun i => i) (fun _ => ChecksFail "not used") "2024-01-01_00-00-00".

(** The probe API answers with an empty result object. *)
Definition world_empty_result : World :=
  sample_world (ProbeJson (PDict [("result", PDict [])])) None dns_plain
    [("http://example.com",
      HttpResponse (mkResponse 200 None "http://example.com/"))].

(** The probe API answers with a result that has a status only. *)
Definition world_status_only : World :=
  sample_world (ProbeJson (PDict [("result", PDict [("status", PStr "down")])]))
    None dns_plain
    [("http://example.com",
      HttpResponse (mkResponse 200 None "http://example.com/"))].

(** An account with one check for [example.com], which answers 200. *)
Definition world_listed : World :=
  mkWorld (fun _ _ => probe_up) None (fun _ => dns_plain)
    (http_reply world_200) (fun i => i)
    (fun _ => ChecksJson [mkHostCheck 101 "Example" "example.com"])
    "2024-01-01_00-00-00".

(** * Properties *)

(** From here on [++] appends lists; strings are appended under [%string]. *)
Local Open Scope list_scope.

(** ** The follow loop *)

Lemma is_redirect_location (r : Response) :
  is_redirect r = true -> exists location, location_header r = Some location.
Proof.
  unfold is_redirect. destruct (location_header r) as [l|]; [eauto | discriminate].
Qed.

Lemma is_redirect_not_200 (r : Response) :
  is_redirect r = true -> Z.eqb (status_code r) 200 = false.
Proof.
  unfold is_redirect. destruct (location_header r); [| discriminate].
  destruct (Z.eqb_spec (status_code r) 200) as [E|]; [| reflexivity].
  rewrite E. discriminate.
Qed.

Section FollowLoop.

Variable w : World.
Variable hostname : string.

(** The two ways through one test of the loop condition. *)
Lemma while_redirect_stop s r reds c :
  is_redirect r && (c <? 5)%nat = false ->
  while_redirect w hostname s r reds c = (Ok (r, reds, c), s).
Proof.
  intros Hc. funelim (while_redirect w hostname s r reds c); [congruence | reflexivity].
Qed.

Lemma while_redirect_step s r reds c :
  is_redirect r && (c <? 5)%nat = true ->
  while_redirect w hostname s r reds c =
  match session_get w s (hop_target hostname r) with
  | (Ok r', s') => while_redirect w hostname s' r' (reds ++ [hop_of hostname r]) (S c)
  | (Raise e, s') => (Raise e, s')
  end.
Proof.
  intros Hc. funelim (while_redirect w hostname s r reds c); [| congruence].
  clear H Heqcall.
  apply andb_prop in Hc. destruct Hc as [Hr _].
  destruct (is_redirect_location _ Hr) as [l Hl].
  unfold hop_of, hop_target. rewrite Hl. cbn zeta.
  destruct (session_get w s (resolve_location hostname l)) as [[r'|e] s'];
    reflexivity.
Qed.

Lemma while_redirect_post (n : nat) :
  forall c s r reds,
    c + n = 5 -> loop_inv hostname s r reds c ->
    loop_post hostname r c (while_redirect w hostname s r reds c).
Proof.
  induction n as [|n IH]; intros c s r reds Hn Hinv.
  - rewrite while_redirect_stop.
    + cbn. repeat split; try lia; auto.
    + replace c with 5 by lia. apply andb_false_r.
  - destruct (is_redirect r && (c <? 5)%nat) eqn:Hc.
    + rewrite (while_redirect_step _ _ _ _ Hc).
      apply andb_prop in Hc. destruct Hc as [Hr _].
      destruct Hinv as (rs & Hs & Hu & Hrs & Hreds & Hlen).
      assert (Hrs' : Forall redirecting (rs ++ [r])).
      { apply Forall_app. split; [assumption | repeat constructor; assumption]. }
      unfold session_get.
      destruct (http_reply w (map fst s) (hop_target hostname r)) as [r'|m] eqn:Hout.
      * specialize (IH (S c) (s ++ [(hop_target hostname r, HttpResponse r')]) r'
                       (reds ++ [hop_of hostname r])).
        assert (Hinv' : loop_inv hostname
                          (s ++ [(hop_target hostname r, HttpResponse r')]) r'
                          (reds ++ [hop_of hostname r]) (S c)).
        { exists (rs ++ [r]). repeat split.
          - rewrite !map_app, Hs, !map_app. reflexivity.
          - rewrite !map_app, Hu. reflexivity.
          - assumption.
          - rewrite map_app, Hreds. reflexivity.
          - rewrite length_app. cbn. lia. }
        specialize (IH ltac:(lia) Hinv').
        destruct (while_redirect w hostname _ r' _ (S c)) as [[[[r2 reds2] c2]|e] s2];
          cbn in IH |- *.
        -- destruct IH as (I2 & Hb & Hstop & _). repeat split; auto; lia.
        -- destruct IH as (rs2 & m2 & He & Hs2 & Hu2 & Hf & Hl).
           exists rs2, m2. repeat split; auto; lia.
      * cbn. exists (rs ++ [r]), m. repeat split.
        -- rewrite map_app, Hs. reflexivity.
        -- rewrite !map_app, Hu. reflexivity.
        -- assumption.
        -- rewrite length_app. cbn. lia.
        -- rewrite length_app. cbn. lia.
    + rewrite (while_redirect_stop _ _ _ _ Hc). cbn.
      repeat split; try lia; auto.
      * apply andb_false_iff in Hc. destruct Hc as [Hc|Hc]; [left; assumption|].
        apply Nat.ltb_ge in Hc. lia.
      * intros Hr Hlt. apply andb_false_iff in Hc. destruct Hc as [Hc|Hc].
        -- congruence.
        -- apply Nat.ltb_ge in Hc. lia.
Qed.

End FollowLoop.

(** ** The four shapes of a trace *)

Lemma trace_redirects_case (w : World) (hostname : string) :
  trace_case hostname (fst (trace_redirects w hostname))
    (snd (trace_redirects w hostname)).
Proof.
  unfold trace_redirects, trace_body, session_get. cbn [map app].
  destruct (http_reply w [] ("http://" ++ hostname)%string) as [r|m] eqn:Hfirst.
  - destruct (Z.eqb_spec (status_code r) 200) as [E|NE].
    + cbn. apply (trace_plain hostname r); [reflexivity | assumption].
    + destruct (is_redirect r) eqn:Hr.
      * assert (Hinv : loop_inv hostname [(("http://" ++ hostname)%string, HttpResponse r)]
                         r [] 0).
        { exists []. repeat split. constructor. }
        pose proof (while_redirect_post w hostname 5 0 _ r [] eq_refl Hinv) as Hpost.
        destruct (while_redirect w hostname _ r [] 0) as [[[[r2 reds2] c2]|e] s2];
          cbn in Hpost |- *.
        -- destruct Hpost as ((rs & Hs & Hu & Hrs & Hreds & Hlen) & Hb & Hstop & Hgt).
           subst reds2. apply (trace_chain hostname rs r2); auto.
           ++ specialize (Hgt Hr). lia.
           ++ subst c2. assumption.
        -- destruct Hpost as (rs & m & He & Hs & Hu & Hrs & Hlen). subst e. cbn.
           apply (trace_failed hostname rs m); auto. lia.
      * cbn. apply (trace_other hostname r); [reflexivity | assumption | assumption].
  - cbn. apply (trace_failed hostname [] m); [reflexivity | reflexivity | constructor | cbn; lia].
Qed.

(** The log starts with the request to the host itself, and the loop only
    appends to it. *)
Lemma while_redirect_extends (w : World) (hostname : string) (n : nat) :
  forall c s r reds,
    c + n = 5 ->
    exists ext, snd (while_redirect w hostname s r reds c) = s ++ ext.
Proof.
  induction n as [|n IH]; intros c s r reds Hn.
  - rewrite while_redirect_stop.
    + exists []. cbn. now rewrite app_nil_r.
    + replace c with 5 by lia. apply andb_false_r.
  - destruct (is_redirect r && (c <? 5)%nat) eqn:Hc.
    + rewrite (while_redirect_step _ _ _ _ _ _ Hc). unfold session_get.
      destruct (http_reply w (map fst s) (hop_target hostname r)) as [r'|m].
      * destruct (IH (S c) (s ++ [(hop_target hostname r, HttpResponse r')]) r'
                     (reds ++ [hop_of hostname r]) ltac:(lia)) as [ext Hext].
        rewrite Hext, <- app_assoc. eauto.
      * cbn. eauto.
    + rewrite (while_redirect_stop _ _ _ _ _ _ Hc).
      exists []. cbn. now rewrite app_nil_r.
Qed.

Lemma trace_log_first (w : World) (hostname : string) :
  exists rest,
    snd (trace_redirects w hostname) =
    (("http://" ++ hostname)%string,
     http_reply w [] ("http://" ++ hostname)%string) :: rest.
Proof.
  unfold trace_redirects, trace_body, session_get. cbn [map app].
  destruct (http_reply w [] ("http://" ++ hostname)%string) as [r|m].
  - destruct (Z.eqb (status_code r) 200); [cbn; eauto|].
    destruct (is_redirect r); [|cbn; eauto].
    destruct (while_redirect_extends w hostname 5 0
                [(("http://" ++ hostname)%string, HttpResponse r)] r [] eq_refl)
      as [ext Hext].
    destruct (while_redirect w hostname _ r [] 0) as [[[[r2 reds2] c2]|e] s2];
      cbn in Hext |- *; subst s2; eauto.
  - cbn. eauto.
Qed.

Lemma map_removelast {A B : Type} (f : A -> B) (l : list A) :
  map f (removelast l) = removelast (map f l).
Proof.
  induction l as [|a [|b l] IH]; [reflexivity | reflexivity |].
  change (f a :: map f (removelast (b :: l)) = f a :: removelast (map f (b :: l))).
  now rewrite IH.
Qed.

Lemma forallb_redirecting (rs : list Response) :
  Forall redirecting rs ->
  forallb redirect_outcome (map HttpResponse rs) = true.
Proof.
  induction 1 as [|r rs Hr _ IH]; [reflexivity|].
  cbn. rewrite Hr, IH. reflexivity.
Qed.

Lemma status_200_no_redirect (r : Response) :
  status_code r = 200%Z -> is_redirect r = false.
Proof.
  intros E. destruct (is_redirect r) eqn:Hr; [|reflexivity].
  apply is_redirect_not_200 in Hr. rewrite E in Hr. discriminate.
Qed.

Lemma no_fail_in_responses (rs : list Response) (m : string) :
  ~ In (HttpFail m) (map HttpResponse rs).
Proof.
  intros H. apply in_map_iff in H. destruct H as (r & Hr & _). discriminate.
Qed.

(** The counter of the loop counts its iterations: each one appends one entry
    and issues one request, and the counter never passes 5. *)
Lemma while_redirect_counter (w : World) (hostname : string) (n : nat) :
  forall c s r reds,
    c + n = 5 ->
    match while_redirect w hostname s r reds c with
    | (Ok (_, reds', c'), s') =>
        c <= c' <= 5 /\
        List.length reds' = List.length reds + (c' - c) /\
        List.length s' = List.length s + (c' - c)
    | (Raise _, s') => List.length s' <= List.length s + (5 - c)
    end.
Proof.
  induction n as [|n IH]; intros c s r reds Hn.
  - rewrite while_redirect_stop.
    + lia.
    + replace c with 5 by lia. apply andb_false_r.
  - destruct (is_redirect r && (c <? 5)%nat) eqn:Hc.
    + rewrite (while_redirect_step _ _ _ _ _ _ Hc). unfold session_get.
      destruct (http_reply w (map fst s) (hop_target hostname r)) as [r'|m].
      * specialize (IH (S c) (s ++ [(hop_target hostname r, HttpResponse r')]) r'
                       (reds ++ [hop_of hostname r]) ltac:(lia)).
        destruct (while_redirect w hostname _ r' _ (S c)) as [[[[r2 reds2] c2]|e] s2];
          rewrite ?length_app in IH; cbn [List.length] in IH; lia.
      * rewrite length_app. cbn [List.length]. lia.
    + rewrite (while_redirect_stop _ _ _ _ _ _ Hc). lia.
Qed.

(** ** The redirect tracer: the claims *)

(** C4.  The tracer follows at most 5 hops.  The loop, entered as the tracer
    enters it, leaves with a counter of at most 5, having appended one entry
    and issued one request per iteration; in the session log of a whole
    trace there are at most 6 requests (the first one and at most 5 followed
    hops), every reply but the last is a redirect, and the last reply is no
    redirect unless the log is full. *)
Theorem tracer_follows_at_most_five_hops (w : World) (hostname : string) :
  (forall s r,
      match while_redirect w hostname s r [] 0 with
      | (Ok (_, redirects, redirect_count), s') =>
          redirect_count <= 5 /\
          List.length redirects = redirect_count /\
          List.length s' = List.length s + redirect_count
      | (Raise _, s') => List.length s' <= List.length s + 5
      end) /\
  1 <= List.length (snd (trace_redirects w hostname)) <= 6 /\
  forallb redirect_outcome
    (map snd (removelast (snd (trace_redirects w hostname)))) = true /\
  (List.length (snd (trace_redirects w hostname)) = 6 \/
   redirect_outcome
     (last (map snd (snd (trace_redirects w hostname))) (HttpFail "")) = false).
Proof.
  split.
  { intros s r.
    pose proof (while_redirect_counter w hostname 5 0 s r [] eq_refl) as H.
    destruct (while_redirect w hostname s r [] 0) as [[[[r2 reds2] c2]|e] s2];
      cbn in H |- *; lia. }
  pose proof (trace_redirects_case w hostname) as H.
  destruct (trace_redirects w hostname) as [res log]. cbn [fst snd] in *.
  rewrite map_removelast, <- (length_map snd log).
  inversion H as [rs m log' Hs Hu Hrs Hlen | r log' Hlog E | r log' Hlog NE Hr
                 | rs r log' Hs Hu Hrs Hlen Hstop]; subst.
  - rewrite Hs, removelast_last, last_last, length_app, length_map. cbn.
    repeat split; try lia; auto using forallb_redirecting.
  - cbn. rewrite (status_200_no_redirect r E). repeat split; auto; lia.
  - cbn. rewrite Hr. repeat split; auto; lia.
  - rewrite Hs, map_app. cbn [map].
    rewrite removelast_last, last_last, length_app, length_map. cbn.
    repeat split; try lia; auto using forallb_redirecting.
    destruct Hstop as [Hstop|Hstop]; [right; assumption | left; lia].
Qed.

(** C5.  A [Location] without an http or https scheme is resolved against
    the host under test with scheme http: with a leading slash it is put right
    after the host, without one a single slash is put in between; a
    [Location] with such a scheme is kept as it is.  The loop records the
    resolved location and sends the next request to it. *)
Theorem relative_location_resolution (hostname location : string) :
  (startswith location "http://" = false ->
   startswith location "https://" = false ->
   startswith location "/" = true ->
   resolve_location hostname location = ("http://" ++ hostname ++ location)%string) /\
  (startswith location "http://" = false ->
   startswith location "https://" = false ->
   startswith location "/" = false ->
   resolve_location hostname location
   = ("http://" ++ hostname ++ "/" ++ location)%string) /\
  (startswith location "http://" = true \/ startswith location "https://" = true ->
   resolve_location hostname location = location) /\
  (forall w s r reds c,
      is_redirect r && (c <? 5)%nat = true ->
      location_header r = Some location ->
      while_redirect w hostname s r reds c =
      match session_get w s (resolve_location hostname location) with
      | (Ok r', s') =>
          while_redirect w hostname s' r'
            (reds ++ [(str_int (status_code r) ++ " => "
                       ++ resolve_location hostname location)%string])
            (S c)
      | (Raise e, s') => (Raise e, s')
      end).
Proof.
  unfold resolve_location. repeat split.
  - intros -> -> ->. reflexivity.
  - intros -> -> ->. reflexivity.
  - intros [-> | ->]; [reflexivity|].
    rewrite andb_false_r. reflexivity.
  - intros w s r reds c Hc Hl.
    rewrite (while_redirect_step _ _ _ _ _ _ Hc).
    unfold hop_of, hop_target, hop_entry, resolve_location. rewrite Hl. reflexivity.
Qed.

Lemma relative_location_resolution_witness :
  resolve_location "example.com" "/path" = "http://example.com/path"%string /\
  resolve_location "example.com" "path" = "http://example.com/path"%string /\
  resolve_location "example.com" "https://other.com/" = "https://other.com/"%string.
Proof.
  split; [| split].
  - apply (proj1 (relative_location_resolution "example.com" "/path")); reflexivity.
  - apply (proj1 (proj2 (relative_location_resolution "example.com" "path")));
      reflexivity.
  - apply (proj1 (proj2 (proj2
             (relative_location_resolution "example.com" "https://other.com/")))).
    right. reflexivity.
Defined.

(** C6, as the claim states it, fails: a 204 reply is a success and no
    redirect, and the trace is ["No Redirect"], not the terminal entry. *)
Lemma non_redirect_success_counterexample :
  http_reply world_204 [] "http://example.com" = HttpResponse world_204_first /\
  is_success world_204_first = true /\
  is_redirect world_204_first = false /\
  fst (trace_redirects world_204 "example.com") = Ok "No Redirect"%string /\
  fst (trace_redirects world_204 "example.com")
  <> Ok ("204 => http://example.com/ (No redirection)")%string.
Proof.
  repeat split. vm_compute. discriminate.
Qed.

(** C6, amended.  When the first reply has status 200, the trace is the one
    entry ["200 => <url> (No redirection)"] and one request was made; a first
    reply with another status that is no redirect gives ["No Redirect"]. *)
Theorem plain_response_trace (w : World) (hostname : string) (r : Response) :
  http_reply w [] ("http://" ++ hostname)%string = HttpResponse r ->
  (status_code r = 200%Z ->
   trace_redirects w hostname
   = (Ok ("200 => " ++ url r ++ " (No redirection)")%string,
      [(("http://" ++ hostname)%string, HttpResponse r)])) /\
  (status_code r <> 200%Z -> is_redirect r = false ->
   trace_redirects w hostname
   = (Ok "No Redirect"%string,
      [(("http://" ++ hostname)%string, HttpResponse r)])).
Proof.
  intros Hfirst.
  unfold trace_redirects, trace_body, session_get. cbn [map app].
  rewrite Hfirst. split.
  - intros E. rewrite E. reflexivity.
  - intros NE Hr. apply Z.eqb_neq in NE. rewrite NE, Hr. reflexivity.
Qed.

Lemma plain_response_trace_witness :
  trace_redirects world_200 "example.com"
  = (Ok "200 => http://example.com/ (No redirection)"%string,
     [("http://example.com"%string,
       HttpResponse (mkResponse 200 None "http://example.com/"))]).
Proof.
  apply (proj1 (plain_response_trace world_200 "example.com"
                  (mkResponse 200 None "http://example.com/") eq_refl)).
  reflexivity.
Defined.

(** A failed request anywhere in the log decides the stored path. *)
Lemma request_failure_path (w : World) (hostname : string)
  (target detail : string) :
  In (target, HttpFail detail) (snd (trace_redirects w hostname)) ->
  fst (trace_redirects w hostname) = Ok ("Request Failed: " ++ detail)%string.
Proof.
  intros Hin.
  pose proof (trace_redirects_case w hostname) as H.
  destruct (trace_redirects w hostname) as [res log]. cbn [fst snd] in *.
  apply (in_map snd) in Hin. cbn [snd] in Hin.
  inversion H as [rs m log' Hs Hu Hrs Hlen | r log' Hlog E | r log' Hlog NE Hr
                 | rs r log' Hs Hu Hrs Hlen Hstop]; subst.
  - rewrite Hs in Hin. apply in_app_or in Hin. destruct Hin as [Hin|Hin].
    + now apply no_fail_in_responses in Hin.
    + destruct Hin as [Hin|[]]. congruence.
  - destruct Hin as [Hin|[]]. discriminate.
  - destruct Hin as [Hin|[]]. discriminate.
  - rewrite Hs in Hin. now apply no_fail_in_responses in Hin.
Qed.

(** C7.  When any request of a trace fails, the value stored under
    ['Redirect Path'] is exactly ["Request Failed: <detail>"]: the entries
    collected before the failure are not part of it. *)
Theorem failed_request_resets_trace (w : World) (hostname : string)
  (target detail : string) :
  In (target, HttpFail detail) (snd (trace_redirects w hostname)) ->
  fst (trace_redirects w hostname) = Ok ("Request Failed: " ++ detail)%string.
Proof.
  apply request_failure_path.
Qed.

Lemma failed_request_resets_trace_witness :
  snd (trace_redirects world_timeout "example.com")
  = [("http://example.com"%string,
      HttpResponse (mkResponse 302 (Some "/login") "http://example.com/"));
     ("http://example.com/login"%string, HttpFail "Read timed out.")] /\
  fst (trace_redirects world_timeout "example.com")
  = Ok "Request Failed: Read timed out."%string.
Proof.
  split; [reflexivity|].
  apply (failed_request_resets_trace world_timeout "example.com"
           "http://example.com/login" "Read timed out.").
  right. left. reflexivity.
Defined.

(** C10.  When the first reply is a redirect and no request of the trace
    fails, the value stored under ['Redirect Path'] is the [" | "]-join of 2
    to 6 entries: one entry [status => resolved location] for each of the 1
    to 5 redirect replies that were followed, the first reply among them, each
    with that reply's own status, and then one entry [status => url] for the
    reply the loop stopped at, which is the first that is no redirect, or the
    sixth reply. *)
Theorem redirect_chain_rendering (w : World) (hostname : string) (r0 : Response) :
  http_reply w [] ("http://" ++ hostname)%string = HttpResponse r0 ->
  is_redirect r0 = true ->
  (forall target detail,
      ~ In (target, HttpFail detail) (snd (trace_redirects w hostname))) ->
  exists (followed : list Response) (final : Response) (entries : list string),
    map snd (snd (trace_redirects w hostname))
    = map HttpResponse (r0 :: followed ++ [final]) /\
    Forall redirecting (r0 :: followed) /\
    1 <= List.length (r0 :: followed) <= 5 /\
    (is_redirect final = false \/ List.length (r0 :: followed) = 5) /\
    entries
    = map (fun r => (str_int (status_code r) ++ " => "
                     ++ hop_target hostname r)%string) (r0 :: followed)
      ++ [(str_int (status_code final) ++ " => " ++ url final)%string] /\
    2 <= List.length entries <= 6 /\
    fst (trace_redirects w hostname) = Ok (join " | " entries).
Proof.
  intros Hfirst Hr0 Hnofail.
  destruct (trace_log_first w hostname) as [rest Hlog0].
  pose proof (trace_redirects_case w hostname) as H.
  destruct (trace_redirects w hostname) as [res log]. cbn [fst snd] in *.
  rewrite Hfirst in Hlog0.
  inversion H as [rs m log' Hs Hu Hrs Hlen | r log' Hlog E | r log' Hlog NE Hr
                 | rs r log' Hs Hu Hrs Hlen Hstop]; subst.
  - exfalso.
    assert (Hin : In (HttpFail m) (map snd ((("http://" ++ hostname)%string,
                                             HttpResponse r0) :: rest))).
    { rewrite Hs. apply in_or_app. right. left. reflexivity. }
    apply in_map_iff in Hin. destruct Hin as ([u o] & Ho & Hin). cbn in Ho. subst o.
    exact (Hnofail u m Hin).
  - injection Hlog as <- _. apply status_200_no_redirect in E. congruence.
  - injection Hlog as <- _. congruence.
  - destruct rs as [|r1 rs]; [cbn in Hlen; lia|].
    cbn in Hs. injection Hs as <- Hs.
    exists rs, r, (map (hop_of hostname) (r0 :: rs) ++ [hop_entry (status_code r) (url r)]).
    repeat split; auto; try lia.
    + cbn. now rewrite Hs.
    + rewrite length_app, length_map. cbn [List.length] in *. lia.
    + rewrite length_app, length_map. cbn [List.length] in *. lia.
Qed.

Lemma redirect_chain_rendering_witness :
  fst (trace_redirects world_301 "example.com")
  = Ok "301 => https://other.com/ | 200 => https://other.com/"%string /\
  exists (followed : list Response) (final : Response) (entries : list string),
    map snd (snd (trace_redirects world_301 "example.com"))
    = map HttpResponse (world_301_first :: followed ++ [final]) /\
    Forall redirecting (world_301_first :: followed) /\
    1 <= List.length (world_301_first :: followed) <= 5 /\
    (is_redirect final = false \/ List.length (world_301_first :: followed) = 5) /\
    entries
    = map (fun r => (str_int (status_code r) ++ " => "
                     ++ hop_target "example.com" r)%string) (world_301_first :: followed)
      ++ [(str_int (status_code final) ++ " => " ++ url final)%string] /\
    2 <= List.length entries <= 6 /\
    fst (trace_redirects world_301 "example.com") = Ok (join " | " entries).
Proof.
  split; [reflexivity|].
  apply (redirect_chain_rendering world_301 "example.com" world_301_first
           eq_refl eq_refl).
  intros target detail Hin. vm_compute in Hin.
  destruct Hin as [Hin|[Hin|[]]]; discriminate.
Defined.

(** ** The DNS inspection *)

(** The tracer hands a string to its caller whatever the replies are. *)
Lemma trace_redirects_total (w : World) (hostname : string) :
  exists path, fst (trace_redirects w hostname) = Ok path.
Proof.
  pose proof (trace_redirects_case w hostname) as H.
  destruct (trace_redirects w hostname) as [res log]. cbn [fst snd] in *.
  inversion H; subst; eauto.
Qed.

Lemma check_redirects_and_dns_total (w : World) (hostname : string) :
  exists path,
    fst (trace_redirects w hostname) = Ok path /\
    check_redirects_and_dns w hostname =
    Ok (hostname,
        mkDnsRedirect
          (A_Records (dns_records w hostname (mkDnsRedirect "" "" "" "")))
          (CNAME_Records (dns_records w hostname (mkDnsRedirect "" "" "" "")))
          (NS_Records (dns_records w hostname (mkDnsRedirect "" "" "" "")))
          path).
Proof.
  destruct (trace_redirects_total w hostname) as [path Hpath].
  exists path. split; [assumption|].
  unfold check_redirects_and_dns. rewrite Hpath. reflexivity.
Qed.

Lemma dns_field_form (w : World) (hostname : string) (t : rdtype) :
  dns_form t (dns_reply w hostname t) (dns_field w hostname t).
Proof.
  unfold dns_field. destruct (dns_reply w hostname t) as [[|a answers]|e].
  - apply dns_none.
  - apply (dns_joined t (a :: answers)). discriminate.
  - apply dns_error.
Qed.

(** C8, as the claim states it, fails: when no resolver can be built the
    CNAME field is the empty string, although the CNAME query would have come
    back without records. *)
Lemma dns_three_forms_counterexample :
  exists d,
    check_redirects_and_dns world_no_resolver "example.com" = Ok ("example.com"%string, d) /\
    dns_reply world_no_resolver "example.com" RCNAME = DnsAnswer [] /\
    CNAME_Records d = ""%string /\
    ~ dns_form RCNAME (dns_reply world_no_resolver "example.com" RCNAME)
        (CNAME_Records d).
Proof.
  eexists. split; [reflexivity|]. split; [reflexivity|]. split; [reflexivity|].
  intros H. vm_compute in H.
  inversion H as [records Hne Hreply Hfield | Hfield | e Hreply].
  apply Hne. reflexivity.
Qed.

Lemma field_when_resolver_built (w : World) (hostname : string) (d : DnsRedirect)
  (t : rdtype) :
  check_redirects_and_dns w hostname = Ok (hostname, d) ->
  resolver_init w = None ->
  field_of t d = dns_field w hostname t.
Proof.
  intros Hd Hinit.
  destruct (check_redirects_and_dns_total w hostname) as (path & _ & Hd').
  rewrite Hd' in Hd. injection Hd as <-.
  unfold dns_records. rewrite Hinit. destruct t; reflexivity.
Qed.

(** C8, amended.  Once the resolver is built, each of the three fields has
    the form that the reply to the query of its own type asks for, and it is
    the same in every world that replies alike to that one query, whatever
    the replies to the other two queries are; when building the resolver
    fails, the A field is ["DNS Lookup Failed: <detail>"] and the other two
    fields are empty. *)
Theorem dns_fields_independent (w : World) (hostname : string) :
  exists d,
    check_redirects_and_dns w hostname = Ok (hostname, d) /\
    (resolver_init w = None ->
     forall t,
       dns_form t (dns_reply w hostname t) (field_of t d) /\
       (forall w' d',
           check_redirects_and_dns w' hostname = Ok (hostname, d') ->
           resolver_init w' = None ->
           dns_reply w' hostname t = dns_reply w hostname t ->
           field_of t d' = field_of t d)) /\
    (forall e, resolver_init w = Some e ->
               A_Records d = ("DNS Lookup Failed: " ++ e)%string /\
               CNAME_Records d = ""%string /\ NS_Records d = ""%string).
Proof.
  destruct (check_redirects_and_dns_total w hostname) as (path & _ & Hd).
  eexists. split; [exact Hd|]. split.
  - intros Hinit t. rewrite (field_when_resolver_built w hostname _ t Hd Hinit).
    split; [apply dns_field_form|].
    intros w' d' Hd' Hinit' Hsame.
    rewrite (field_when_resolver_built w' hostname d' t Hd' Hinit').
    unfold dns_field. rewrite Hsame. reflexivity.
  - intros e Hinit. unfold dns_records. rewrite Hinit. cbn. auto.
Qed.

Lemma dns_fields_independent_witness :
  exists d,
    check_redirects_and_dns world_dns_mixed "example.com" = Ok ("example.com"%string, d) /\
    A_Records d = "DNS Lookup A Failed: The DNS operation timed out."%string /\
    CNAME_Records d = "edge.example.net."%string /\
    NS_Records d = "No NS Records Found"%string.
Proof.
  destruct (dns_fields_independent world_dns_mixed "example.com")
    as (d & Hd & Hforms & _).
  exists d. split; [exact Hd|].
  pose proof (proj1 (Hforms eq_refl RA)) as Ha.
  pose proof (proj1 (Hforms eq_refl RCNAME)) as Hc.
  pose proof (proj1 (Hforms eq_refl RNS)) as Hn.
  cbn in Ha, Hc, Hn.
  inversion Ha; inversion Hc; inversion Hn; [congruence | auto].
Defined.

(** ** The partition into batches *)

Section Partition.

Context {A : Type}.

(** Slices of width [step] taken at [0], [step], [2 * step], ... cover a list
    that is not longer than all of them together. *)
Lemma chunks_cover (step : nat) :
  forall (k : nat) (l : list A),
    List.length l <= k * step ->
    List.concat (map (fun i => slice l i (i + step))
                (map (fun j => j * step) (seq 0 k))) = l.
Proof.
  induction k as [|k IH]; intros l Hlen.
  - destruct l; [reflexivity | cbn in Hlen; lia].
  - cbn [seq map List.concat]. rewrite <- seq_shift, !map_map.
    unfold slice at 1. cbn [Nat.mul Nat.add].
    rewrite Nat.sub_0_r. cbn [skipn].
    transitivity (firstn step l ++ skipn step l); [| apply firstn_skipn].
    f_equal.
    transitivity (List.concat
                    (map (fun i => slice (skipn step l) i (i + step))
                         (map (fun j => j * step) (seq 0 k)))).
    + rewrite map_map. f_equal. apply map_ext. intros j. unfold slice.
      rewrite skipn_skipn. f_equal; [lia | f_equal; lia].
    + apply IH. rewrite length_skipn. lia.
Qed.

Lemma range_step_covers (stop step : nat) :
  0 < step -> stop <= ((stop + step - 1) / step) * step.
Proof.
  intros Hstep.
  pose proof (Nat.div_mod_eq (stop + step - 1) step) as Hdm.
  pose proof (Nat.mod_upper_bound (stop + step - 1) step ltac:(lia)) as Hmod.
  nia.
Qed.

(** Distinct members of a list of lists share no element when the
    concatenation has no duplicates. *)
Lemma concat_NoDup_disjoint (ls : list (list A)) :
  NoDup (List.concat ls) ->
  forall i j li lj x,
    i <> j -> nth_error ls i = Some li -> nth_error ls j = Some lj ->
    In x li -> ~ In x lj.
Proof.
  induction ls as [|l0 ls IH]; intros Hnd i j li lj x Hij Hi Hj Hxi Hxj.
  - destruct i; discriminate.
  - cbn in Hnd. pose proof (NoDup_app_remove_l _ _ Hnd) as Hnd'.
    assert (Hsplit : forall y, In y l0 -> ~ In y (List.concat ls)).
    { intros y Hy Hy'. revert Hnd Hy Hy'. clear. induction l0 as [|a l0 IHl]; cbn.
      - tauto.
      - intros Hnd [->|Hy] Hy'.
        + apply NoDup_cons_iff in Hnd. apply (proj1 Hnd), in_or_app. auto.
        + apply NoDup_cons_iff in Hnd. apply IHl; tauto. }
    assert (Hin : forall k lk y, nth_error ls k = Some lk -> In y lk -> In y (List.concat ls)).
    { intros k lk y Hk Hy. apply in_concat. exists lk.
      split; [eapply nth_error_In; eassumption | assumption]. }
    destruct i as [|i], j as [|j]; cbn in Hi, Hj.
    + congruence.
    + injection Hi as <-. eapply Hsplit; eauto.
    + injection Hj as <-. eapply Hsplit; eauto.
    + eapply (IH Hnd' i j); eauto.
Qed.

End Partition.

Lemma make_batches_concat (n : nat) (checks : list HostCheck) :
  List.concat (make_batches n checks) = checks.
Proof.
  unfold make_batches, range_step. apply chunks_cover.
  apply range_step_covers. unfold batch_size. lia.
Qed.

Lemma make_batches_length (n : nat) (checks : list HostCheck) :
  0 < n -> List.length (make_batches n checks) <= n.
Proof.
  intros Hn. unfold make_batches, range_step.
  rewrite !length_map, length_seq. unfold batch_size.
  set (L := List.length checks). set (b := L / n + 1).
  assert (HL : L < n * b).
  { pose proof (Nat.div_mod_eq L n) as Hdm.
    pose proof (Nat.mod_upper_bound L n ltac:(lia)) as Hmod.
    unfold b. nia. }
  assert (Hlt : (L + b - 1) / b < S n).
  { apply Nat.Div0.div_lt_upper_bound. nia. }
  lia.
Qed.

(** C3.  For a positive number of workers, the batches are consecutive
    slices that put together give back the list of checks: their lengths add
    up to its length, there are no more batches than workers, and two
    different batches share no check as long as no check is listed twice. *)
Theorem partition_covers_each_check_once (n : nat) (checks : list HostCheck) :
  0 < n ->
  List.concat (make_batches n checks) = checks /\
  list_sum (map (@List.length HostCheck) (make_batches n checks))
  = List.length checks /\
  List.length (make_batches n checks) <= n /\
  (NoDup checks ->
   forall i j batch_i batch_j check,
     i <> j ->
     nth_error (make_batches n checks) i = Some batch_i ->
     nth_error (make_batches n checks) j = Some batch_j ->
     In check batch_i -> ~ In check batch_j).
Proof.
  intros Hn. pose proof (make_batches_concat n checks) as Hcat.
  repeat split.
  - assumption.
  - rewrite <- length_concat, Hcat. reflexivity.
  - apply make_batches_length. assumption.
  - intros Hnd. apply concat_NoDup_disjoint. rewrite Hcat. assumption.
Qed.

Lemma partition_covers_each_check_once_witness :
  make_batches 2 three_checks
  = [[mkHostCheck 1 "one" "one.example.com"; mkHostCheck 2 "two" "two.example.com"];
     [mkHostCheck 3 "three" "three.example.com"]] /\
  List.concat (make_batches 2 three_checks) = three_checks /\
  list_sum (map (@List.length HostCheck) (make_batches 2 three_checks)) = 3 /\
  List.length (make_batches 2 three_checks) <= 2.
Proof.
  split; [reflexivity|].
  destruct (partition_covers_each_check_once 2 three_checks ltac:(lia))
    as (Hcat & Hsum & Hlen & _).
  auto.
Defined.

(** ** The probe call and the row of one check *)

Lemma perform_pingdom_check_ok (w : World) (api_key : string) (cid : Z)
  (cname target : string) :
  probe_ok (probe_reply w api_key target) = true ->
  exists cells,
    perform_pingdom_check w api_key cid cname target = Ok (target, cells) /\
    List.length cells = 7 /\
    (forall m, probe_reply w api_key target = ProbeFail m ->
               nth 2 cells PNone = PStr ("Error: " ++ m)%string).
Proof.
  unfold perform_pingdom_check, probe_json, probe_ok.
  destruct (probe_reply w api_key target) as [body|m]; intros Hok.
  - destruct body as [| | | | |kv]; try discriminate. cbn in Hok |- *.
    destruct (assoc kv "result") as [v|].
    + destruct (truthy v) eqn:Hv.
      * destruct v as [| | | | |kv']; try discriminate.
        cbn. eexists. repeat split. intros m Hm. discriminate.
      * cbn. eexists. repeat split. intros m Hm. discriminate.
    + cbn. eexists. repeat split. intros m Hm. discriminate.
  - cbn. eexists. repeat split. intros m' Hm. injection Hm as <-. reflexivity.
Qed.


Lemma combined_result_ok (w : World) (api_key : string) (check : HostCheck) :
  probe_ok (probe_reply w api_key (hostname check)) = true ->
  exists cells d,
    perform_pingdom_check w api_key (check_id check) (check_name check)
      (hostname check) = Ok (hostname check, cells) /\
    List.length cells = 7 /\
    check_redirects_and_dns w (hostname check) = Ok (hostname check, d) /\
    fst (trace_redirects w (hostname check)) = Ok (Redirect_Path d) /\
    combined_result w api_key check
    = Ok (cells ++ [PStr (hostname check); PStr (A_Records d);
                    PStr (CNAME_Records d); PStr (NS_Records d);
                    PStr (Redirect_Path d)]).
Proof.
  intros Hok.
  destruct (perform_pingdom_check_ok w api_key (check_id check) (check_name check)
              (hostname check) Hok) as (cells & Hp & Hlen & _).
  destruct (check_redirects_and_dns_total w (hostname check)) as (path & Hpath & Hd).
  exists cells. eexists. split; [exact Hp|]. split; [exact Hlen|].
  split; [exact Hd|]. split; [exact Hpath|].
  unfold combined_result. rewrite Hp. cbn [bind]. rewrite Hd. reflexivity.
Qed.

Lemma row_of_ok (w : World) (api_key : string) (check : HostCheck) :
  probe_ok (probe_reply w api_key (hostname check)) = true ->
  combined_result w api_key check = Ok (row_of w api_key check) /\
  List.length (row_of w api_key check) = 12.
Proof.
  intros Hok.
  destruct (combined_result_ok w api_key check Hok)
    as (cells & d & _ & Hlen & _ & _ & Hrow).
  unfold row_of. rewrite Hrow. split; [reflexivity|].
  rewrite length_app, Hlen. reflexivity.
Qed.




(** ** Lanes and merge *)

Section Completion.

Context {A : Type}.
Variable finish : nat -> nat.



Lemma map_snd_combine_seq (l : list A) (start : nat) :
  map snd (combine (seq start (List.length l)) l) = l.
Proof.
  revert start. induction l as [|a l IH]; intros start; cbn; [reflexivity|].
  now rewrite IH.
Qed.


End Completion.

Section CompletionMap.

Context {A B : Type}.
Variable finish : nat -> nat.
Variable f : A -> B.






End CompletionMap.


Section Lanes.

Variable w : World.
Variable api_key : string.

(** A lane whose probe replies are all well formed returns one row per check,
    in the order of the batch. *)
Lemma lane_rows (batch : list HostCheck) :
  checks_ok w api_key batch ->
  forall results,
    for_each (process_check w api_key) batch results
    = Ok (results ++ map (row_of w api_key) batch).
Proof.
  induction batch as [|check batch IH]; intros Hok results; cbn.
  - now rewrite app_nil_r.
  - unfold process_check at 1.
    destruct (row_of_ok w api_key check (Hok check (or_introl eq_refl))) as [Hrow _].
    rewrite Hrow. cbn [bind].
    rewrite IH, <- app_assoc; [reflexivity|].
    intros c Hc. apply Hok. now right.
Qed.


Lemma merge_rows (batches : list (list HostCheck)) :
  (forall batch, In batch batches -> checks_ok w api_key batch) ->
  forall results,
    for_each collect (map (process_hostname_batch w api_key) batches) results
    = Ok (results ++ List.concat (map (map (row_of w api_key)) batches)).
Proof.
  induction batches as [|batch batches IH]; intros Hok results; cbn.
  - now rewrite app_nil_r.
  - unfold collect at 1, process_hostname_batch at 1.
    rewrite (lane_rows batch (Hok batch (or_introl eq_refl))). cbn [bind app].
    rewrite IH, <- app_assoc; [reflexivity|].
    intros b Hb. apply Hok. now right.
Qed.


End Lanes.




(** ** The scheduler: the claims *)




(** When the account has checks but none for the targets asked for, no batch
    is submitted either, and a file with the header alone is written. *)
Lemma main_without_match (w : World) (api_key : string) (target_urls : list string) :
  snd (retrieve_pingdom_checks w api_key) <> [] ->
  filter (fun check => existsb (String.eqb (hostname check)) target_urls)
         (snd (retrieve_pingdom_checks w api_key)) = [] ->
  main w api_key target_urls
  = Ok (mkOutcome
          (fst (retrieve_pingdom_checks w api_key)
           ++ [("Results have been written to Hostname_results_" ++ now w
                ++ "_UTC.csv")%string])
          0
          (Some (("Hostname_results_" ++ now w ++ "_UTC.csv")%string, [csv_header]))).
Proof.
  unfold main. destruct (retrieve_pingdom_checks w api_key) as [out checks].
  cbn [fst snd]. intros Hne Hfilter.
  destruct checks as [|check checks]; [congruence|].
  rewrite Hfilter. reflexivity.
Qed.

(** C9, as the claim states it, fails: the account has a check, none matches
    the target, so the list handed to the lanes is empty; no batch is
    submitted and nothing is raised, but what is reported is not that there
    is nothing to do: a file with the header alone is written and its name
    is printed. *)
Lemma empty_scheduler_input_counterexample :
  snd (retrieve_pingdom_checks world_listed "key")
  = [mkHostCheck 101 "Example" "example.com"] /\
  filter (fun check => existsb (String.eqb (hostname check))
                         ["other.example.org"%string])
         (snd (retrieve_pingdom_checks world_listed "key")) = [] /\
  main world_listed "key" ["other.example.org"%string]
  = Ok (mkOutcome
          ["Results have been written to Hostname_results_2024-01-01_00-00-00_UTC.csv"%string]
          0
          (Some ("Hostname_results_2024-01-01_00-00-00_UTC.csv"%string,
                 [csv_header]))) /\
  main world_listed "key" ["other.example.org"%string]
  <> Ok (mkOutcome ["No Pingdom checks found."%string] 0 None).
Proof.
  split; [reflexivity|]. split; [reflexivity|]. split; [reflexivity|].
  vm_compute. discriminate.
Qed.

(** C9, amended.  With no checks handed to the lanes the batches are none,
    the merge is the empty list, and nothing is raised.  What [main] reports
    depends on why that list is empty: finding the list of checks of the
    account empty, it prints ["No Pingdom checks found."] and returns, with
    no batch submitted and no file written; finding checks but none for the
    targets, it submits no batch either, writes a file with the header
    alone and prints the name of that file. *)
Theorem empty_scheduler_input (w : World) (api_key : string)
  (target_urls : list string) :
  make_batches max_workers [] = [] /\
  run_lanes w api_key [] = Ok [] /\
  (snd (retrieve_pingdom_checks w api_key) = [] ->
   main w api_key target_urls
   = Ok (mkOutcome
           (fst (retrieve_pingdom_checks w api_key) ++ ["No Pingdom checks found."%string])
           0 None)) /\
  (snd (retrieve_pingdom_checks w api_key) <> [] ->
   filter (fun check => existsb (String.eqb (hostname check)) target_urls)
          (snd (retrieve_pingdom_checks w api_key)) = [] ->
   main w api_key target_urls
   = Ok (mkOutcome
           (fst (retrieve_pingdom_checks w api_key)
            ++ [("Results have been written to Hostname_results_" ++ now w
                 ++ "_UTC.csv")%string])
           0
           (Some (("Hostname_results_" ++ now w ++ "_UTC.csv")%string,
                  [csv_header])))).
Proof.
  split; [reflexivity|]. split; [reflexivity|]. split.
  - unfold main. destruct (retrieve_pingdom_checks w api_key) as [out checks].
    cbn [fst snd]. intros ->. reflexivity.
  - apply main_without_match.
Qed.

Lemma empty_scheduler_input_witness :
  main world_no_checks "key" ["example.com"%string]
  = Ok (mkOutcome ["No Pingdom checks found."%string] 0 None) /\
  main world_listed "key" ["other.example.org"%string]
  = Ok (mkOutcome
          ["Results have been written to Hostname_results_2024-01-01_00-00-00_UTC.csv"%string]
          0
          (Some ("Hostname_results_2024-01-01_00-00-00_UTC.csv"%string,
                 [csv_header]))).
Proof.
  split.
  - apply (proj1 (proj2 (proj2 (empty_scheduler_input world_no_checks "key"
                                  ["example.com"%string])))).
    reflexivity.
  - apply (proj2 (proj2 (proj2 (empty_scheduler_input world_listed "key"
                                  ["other.example.org"%string])))).
    + discriminate.
    + reflexivity.
Defined.

(** * Further properties *)

(** ** The redirect tracer *)



Lemma prefix_empty (s : string) : String.prefix "" s = true.
Proof. destruct s; reflexivity. Qed.

(** X4.  A resolved location always carries an http or https scheme, and
    resolving it once more changes nothing. *)
Theorem resolve_location_absolute (hostname location : string) :
  (startswith (resolve_location hostname location) "http://" = true \/
   startswith (resolve_location hostname location) "https://" = true) /\
  resolve_location hostname (resolve_location hostname location)
  = resolve_location hostname location.
Proof.
  unfold resolve_location.
  destruct (startswith location "http://") eqn:H1;
    [cbn [negb andb]; rewrite H1; cbn; auto|].
  destruct (startswith location "https://") eqn:H2;
    [cbn [negb andb]; rewrite H1, H2; cbn; auto|].
  cbn [negb andb].
  destruct (startswith location "/"); cbn; rewrite prefix_empty; cbn; auto.
Qed.

Lemma log_consistent_snoc (w : World) (s : session) (target : string) :
  log_consistent w s ->
  log_consistent w (s ++ [(target, http_reply w (map fst s) target)]).
Proof.
  intros Hs i u o Hi.
  destruct (Nat.lt_ge_cases i (List.length s)) as [Hlt|Hge].
  - rewrite nth_error_app1 in Hi by assumption.
    rewrite firstn_app. replace (i - List.length s) with 0 by lia.
    cbn [firstn]. rewrite app_nil_r. apply Hs. assumption.
  - rewrite nth_error_app2 in Hi by assumption.
    destruct (i - List.length s) as [|k] eqn:Hk; cbn in Hi.
    + injection Hi as <- <-. replace i with (List.length s) by lia.
      rewrite firstn_app, firstn_all, Nat.sub_diag. cbn [firstn].
      now rewrite app_nil_r.
    + destruct k; discriminate.
Qed.

Lemma while_redirect_consistent (w : World) (hostname : string) (n : nat) :
  forall c s r reds,
    5 - c <= n ->
    log_consistent w s ->
    log_consistent w (snd (while_redirect w hostname s r reds c)).
Proof.
  induction n as [|n IH]; intros c s r reds Hn Hs.
  - rewrite while_redirect_stop; [assumption|].
    replace (c <? 5)%nat with false; [apply andb_false_r|].
    symmetry. apply Nat.ltb_ge. lia.
  - destruct (is_redirect r && (c <? 5)%nat) eqn:Hc.
    + rewrite (while_redirect_step _ _ _ _ _ _ Hc). unfold session_get.
      pose proof (log_consistent_snoc w s (hop_target hostname r) Hs) as Hs'.
      destruct (http_reply w (map fst s) (hop_target hostname r)) as [r'|m'].
      * apply IH; [lia | assumption].
      * assumption.
    + rewrite (while_redirect_stop _ _ _ _ _ _ Hc). assumption.
Qed.

Lemma trace_log_consistent (w : World) (hostname : string) :
  log_consistent w (snd (trace_redirects w hostname)).
Proof.
  assert (H0 : log_consistent w []) by (intros [|i] u o Hi; discriminate).
  pose proof (log_consistent_snoc w [] ("http://" ++ hostname)%string H0) as H1.
  unfold trace_redirects, trace_body, session_get. cbn [map app] in *.
  destruct (http_reply w [] ("http://" ++ hostname)%string) as [r|m].
  - destruct (Z.eqb (status_code r) 200); [exact H1|].
    destruct (is_redirect r); [|exact H1].
    pose proof (while_redirect_consistent w hostname 5 0 _ r [] ltac:(lia) H1) as H2.
    destruct (while_redirect w hostname _ r [] 0) as [[[[r2 reds2] c2]|e] s2];
      exact H2.
  - exact H1.
Qed.

(** In a log whose requests follow the targets of [rs], the request after
    position [i] was sent to the target of the reply at position [i]. *)
Lemma chain_step {B : Type} (f : Response -> B) (u0 : B)
  (log : list (B * http_outcome)) (rs : list Response) (last_reply : http_outcome)
  (i : nat) (target : B) (reply : http_outcome) :
  map fst log = u0 :: map f rs ->
  map snd log = map HttpResponse rs ++ [last_reply] ->
  nth_error log (S i) = Some (target, reply) ->
  exists u r,
    nth_error log i = Some (u, HttpResponse r) /\ In r rs /\ target = f r.
Proof.
  intros Hfst Hsnd Hi.
  assert (Ht : nth_error (map fst log) (S i) = Some target).
  { rewrite nth_error_map, Hi. reflexivity. }
  rewrite Hfst in Ht. cbn in Ht. rewrite nth_error_map in Ht.
  destruct (nth_error rs i) as [r|] eqn:Hr; [|discriminate].
  injection Ht as <-.
  assert (Ho : nth_error (map snd log) i = Some (HttpResponse r)).
  { rewrite Hsnd, nth_error_app1.
    - rewrite nth_error_map, Hr. reflexivity.
    - rewrite length_map. apply nth_error_Some. congruence. }
  rewrite nth_error_map in Ho.
  destruct (nth_error log i) as [[u o]|] eqn:Hlog; [|discriminate].
  cbn in Ho. injection Ho as ->.
  exists u, r. repeat split. eapply nth_error_In; eassumption.
Qed.

(** X2.  The requests of a trace form a chain: the first goes to
    [http://<hostname>], every later one to the location of the reply just
    before it, a redirect, resolved against the hostname under test (also
    when the chain has moved to another host); each reply is the one the
    world gives after the requests before it. *)
Theorem trace_request_chain (w : World) (hostname : string) :
  (exists rest,
      snd (trace_redirects w hostname)
      = (("http://" ++ hostname)%string,
         http_reply w [] ("http://" ++ hostname)%string) :: rest) /\
  (forall i target reply,
      nth_error (snd (trace_redirects w hostname)) (S i) = Some (target, reply) ->
      exists u r location,
        nth_error (snd (trace_redirects w hostname)) i = Some (u, HttpResponse r) /\
        is_redirect r = true /\
        location_header r = Some location /\
        target = resolve_location hostname location /\
        reply = http_reply w
                  (map fst (firstn (S i) (snd (trace_redirects w hostname)))) target).
Proof.
  split; [apply trace_log_first|].
  intros i target reply Hi.
  pose proof (trace_log_consistent w hostname (S i) target reply Hi) as Hreply.
  pose proof (trace_redirects_case w hostname) as H.
  destruct (trace_redirects w hostname) as [res log]. cbn [fst snd] in *.
  assert (Hchain : exists u r,
             nth_error log i = Some (u, HttpResponse r) /\
             is_redirect r = true /\ target = hop_target hostname r).
  { inversion H as [rs m log' Hs Hu Hrs Hlen | r log' Hlog E | r log' Hlog NE Hr
                   | rs r log' Hs Hu Hrs Hlen Hstop]; subst.
    - destruct (chain_step _ _ _ _ _ _ _ _ Hu Hs Hi) as (u & r & Hlog & Hin & Ht).
      exists u, r. repeat split; auto.
      exact (proj1 (Forall_forall _ _) Hrs r Hin).
    - destruct i; discriminate.
    - destruct i; discriminate.
    - rewrite map_app in Hs. cbn [map] in Hs.
      destruct (chain_step _ _ _ _ _ _ _ _ Hu Hs Hi) as (u & r' & Hlog & Hin & Ht).
      exists u, r'. repeat split; auto.
      exact (proj1 (Forall_forall _ _) Hrs r' Hin). }
  destruct Hchain as (u & r & Hlog & Hr & Ht).
  destruct (is_redirect_location r Hr) as [location Hloc].
  exists u, r, location. repeat split; auto.
  unfold hop_target in Ht. rewrite Hloc in Ht. assumption.
Qed.

Lemma trace_request_chain_witness :
  exists u r location,
    nth_error (snd (trace_redirects world_timeout "example.com")) 0
    = Some (u, HttpResponse r) /\
    is_redirect r = true /\
    location_header r = Some location /\
    "http://example.com/login"%string = resolve_location "example.com" location /\
    HttpFail "Read timed out."
    = http_reply world_timeout
        (map fst (firstn 1 (snd (trace_redirects world_timeout "example.com"))))
        "http://example.com/login".
Proof.
  apply (proj2 (trace_request_chain world_timeout "example.com") 0
           "http://example.com/login"%string (HttpFail "Read timed out.")).
  reflexivity.
Defined.

Lemma log_reply_from_world (w : World) (log : session) (o : http_outcome) :
  log_consistent w log ->
  In o (map snd log) ->
  exists hist u, o = http_reply w hist u.
Proof.
  intros Hlog Hin. apply in_map_iff in Hin. destruct Hin as ([u o'] & Ho & Hin).
  cbn in Ho. subst o'. apply In_nth_error in Hin. destruct Hin as [i Hi].
  exists (map fst (firstn i log)), u. exact (Hlog i u o Hi).
Qed.

(** X3.  A chain of redirects that never ends is cut: when every reply is a
    redirect, exactly 6 requests are made, 5 replies are followed, and the
    last entry shows the sixth reply, itself a redirect, by its status and
    its own URL. *)
Theorem endless_redirects_are_cut (w : World) (hostname : string) :
  (forall hist u, redirect_outcome (http_reply w hist u) = true) ->
  List.length (snd (trace_redirects w hostname)) = 6 /\
  exists rs r,
    List.length rs = 5 /\
    map snd (snd (trace_redirects w hostname)) = map HttpResponse (rs ++ [r]) /\
    is_redirect r = true /\
    fst (trace_redirects w hostname)
    = Ok (join " | " (map (hop_of hostname) rs ++ [hop_entry (status_code r) (url r)])).
Proof.
  intros Hall.
  pose proof (trace_log_consistent w hostname) as Hcons.
  pose proof (trace_redirects_case w hostname) as H.
  destruct (trace_redirects w hostname) as [res log]. cbn [fst snd] in *.
  assert (Hredirect : forall o, In o (map snd log) -> redirect_outcome o = true).
  { intros o Ho. destruct (log_reply_from_world w log o Hcons Ho) as (hist & u & ->).
    apply Hall. }
  inversion H as [rs m log' Hs Hu Hrs Hlen | r log' Hlog E | r log' Hlog NE Hr
                 | rs r log' Hs Hu Hrs Hlen Hstop]; subst.
  - specialize (Hredirect (HttpFail m)). rewrite Hs in Hredirect.
    discriminate Hredirect. apply in_or_app. right. now left.
  - specialize (Hredirect (HttpResponse r) (or_introl eq_refl)). cbn in Hredirect.
    rewrite (status_200_no_redirect r E) in Hredirect. discriminate.
  - specialize (Hredirect (HttpResponse r) (or_introl eq_refl)). cbn in Hredirect.
    congruence.
  - assert (Hr : is_redirect r = true).
    { apply (Hredirect (HttpResponse r)). rewrite Hs, map_app.
      apply in_or_app. right. now left. }
    assert (Hfive : List.length rs = 5) by (destruct Hstop; congruence).
    split.
    + rewrite <- (length_map snd log), Hs, length_map, length_app. cbn. lia.
    + exists rs, r. auto.
Qed.

Lemma endless_redirects_are_cut_witness :
  fst (trace_redirects world_loop "example.com")
  = Ok ("301 => http://example.com/next | 301 => http://example.com/next | "
        ++ "301 => http://example.com/next | 301 => http://example.com/next | "
        ++ "301 => http://example.com/next | 301 => http://example.com/next")%string /\
  List.length (snd (trace_redirects world_loop "example.com")) = 6.
Proof.
  split; [reflexivity|].
  apply (endless_redirects_are_cut world_loop "example.com").
  intros hist u. reflexivity.
Defined.

(** ** What each part depends on *)

Lemma while_redirect_ext (w w' : World) (hostname : string) (n : nat) :
  (forall hist u, http_reply w hist u = http_reply w' hist u) ->
  forall c s r reds,
    5 - c <= n ->
    while_redirect w hostname s r reds c = while_redirect w' hostname s r reds c.
Proof.
  intros Hsame. induction n as [|n IH]; intros c s r reds Hn.
  - rewrite !while_redirect_stop; [reflexivity | |];
      (replace (c <? 5)%nat with false; [apply andb_false_r|];
       symmetry; apply Nat.ltb_ge; lia).
  - destruct (is_redirect r && (c <? 5)%nat) eqn:Hc.
    + rewrite !(while_redirect_step _ _ _ _ _ _ Hc). unfold session_get.
      rewrite <- Hsame.
      destruct (http_reply w (map fst s) (hop_target hostname r)) as [r'|m'].
      * apply IH. lia.
      * reflexivity.
    + rewrite !(while_redirect_stop _ _ _ _ _ _ Hc). reflexivity.
Qed.

Lemma trace_redirects_ext (w w' : World) (hostname : string) :
  (forall hist u, http_reply w hist u = http_reply w' hist u) ->
  trace_redirects w hostname = trace_redirects w' hostname.
Proof.
  intros Hsame. unfold trace_redirects, trace_body, session_get.
  rewrite <- Hsame.
  destruct (http_reply w (map fst []) ("http://" ++ hostname)%string) as [r|m];
    [|reflexivity].
  destruct (Z.eqb (status_code r) 200); [reflexivity|].
  destruct (is_redirect r); [|reflexivity].
  rewrite (while_redirect_ext w w' hostname 5 Hsame 0) by lia. reflexivity.
Qed.

(** X5.  The two halves of [check_redirects_and_dns] do not touch each other:
    the redirect path is the same in any two worlds with the same HTTP
    replies, whatever the DNS queries give and even when no resolver can be
    built; the three DNS fields are the same in any two worlds with the same
    resolver and the same DNS replies, whatever the HTTP requests give. *)
Theorem dns_and_redirects_do_not_interfere (w w' : World) (hostname : string)
  (d d' : DnsRedirect) :
  check_redirects_and_dns w hostname = Ok (hostname, d) ->
  check_redirects_and_dns w' hostname = Ok (hostname, d') ->
  ((forall hist u, http_reply w hist u = http_reply w' hist u) ->
   Redirect_Path d = Redirect_Path d') /\
  (resolver_init w = resolver_init w' ->
   (forall t, dns_reply w hostname t = dns_reply w' hostname t) ->
   A_Records d = A_Records d' /\ CNAME_Records d = CNAME_Records d' /\
   NS_Records d = NS_Records d').
Proof.
  intros Hd Hd'.
  destruct (check_redirects_and_dns_total w hostname) as (path & Hpath & Hd0).
  destruct (check_redirects_and_dns_total w' hostname) as (path' & Hpath' & Hd0').
  rewrite Hd0 in Hd. rewrite Hd0' in Hd'.
  injection Hd as <-. injection Hd' as <-. cbn [Redirect_Path A_Records
    CNAME_Records NS_Records]. split.
  - intros Hsame. rewrite (trace_redirects_ext w w' hostname Hsame) in Hpath.
    congruence.
  - intros Hinit Hdns. unfold dns_records, dns_field.
    rewrite <- Hinit, <- !Hdns. destruct (resolver_init w); cbn; auto.
Qed.

Lemma dns_and_redirects_do_not_interfere_witness :
  exists d d',
    check_redirects_and_dns world_200 "example.com" = Ok ("example.com"%string, d) /\
    check_redirects_and_dns world_no_resolver "example.com"
    = Ok ("example.com"%string, d') /\
    A_Records d <> A_Records d' /\
    Redirect_Path d = Redirect_Path d'.
Proof.
  eexists. eexists. split; [reflexivity|]. split; [reflexivity|].
  split; [discriminate|].
  apply (proj1 (dns_and_redirects_do_not_interfere world_200 world_no_resolver
                  "example.com" _ _ eq_refl eq_refl)).
  intros hist u. reflexivity.
Defined.

(** ** The probe call *)

(** X6.  The probe call returns a row exactly when the reply is a request
    failure or has the shape of the API: then the row has 7 cells, starting
    with the name and the target and ending with the id of the check, and it
    comes back under the target as key.  On any other reply the call raises
    AttributeError, and nothing else. *)
Theorem probe_call_outcomes (w : World) (api_key : string) (cid : Z)
  (cname target : string) :
  match perform_pingdom_check w api_key cid cname target with
  | Ok (key, cells) =>
      probe_ok (probe_reply w api_key target) = true /\
      key = target /\
      List.length cells = 7 /\
      nth 0 cells PNone = PStr cname /\
      nth 1 cells PNone = PStr target /\
      nth 6 cells PNone = PInt cid
  | Raise e =>
      probe_ok (probe_reply w api_key target) = false /\
      exists m, e = AttributeError m
  end.
Proof.
  unfold perform_pingdom_check, probe_json, probe_ok.
  destruct (probe_reply w api_key target) as [body|m]; [|cbn; auto 10].
  destruct body as [| | | | |kv]; cbn; eauto.
  destruct (assoc kv "result") as [v|]; [|cbn; auto 10].
  destruct (truthy v) eqn:Hv; [|cbn; auto 10].
  destruct v as [| | | | |kv']; cbn; eauto 10.
Qed.

(** X7.  What the probe row holds, by the body of the reply: without a
    ["result"] member, or with one that is falsy (null, false, 0, an empty
    string, list or object), the status is ["No result returned"] and the
    three descriptions are ["N/A"]; with a non-empty result object, each of
    the four cells is the member of that name, or ["N/A"] where the object
    has no such member. *)
Theorem probe_row_by_body (w : World) (api_key : string) (cid : Z)
  (cname target : string) (top : list (string * pyval)) :
  probe_reply w api_key target = ProbeJson (PDict top) ->
  (match assoc top "result" with None => True | Some v => truthy v = false end ->
   perform_pingdom_check w api_key cid cname target
   = Ok (target,
         [PStr cname; PStr target; PStr "No result returned"; PStr "N/A";
          PStr "N/A"; PStr "N/A"; PInt cid])) /\
  (forall kv,
      assoc top "result" = Some (PDict kv) -> kv <> [] ->
      perform_pingdom_check w api_key cid cname target
      = Ok (target,
            [PStr cname; PStr target; field_or_NA kv "status";
             field_or_NA kv "probedesc"; field_or_NA kv "statusdesc";
             field_or_NA kv "statusdesclong"; PInt cid])).
Proof.
  intros Hreply. unfold perform_pingdom_check, probe_json. rewrite Hreply.
  cbn [bind py_get except_RequestException]. split.
  - destruct (assoc top "result") as [v|]; [intros ->|intros _]; reflexivity.
  - intros kv -> Hne. destruct kv as [|p kv]; [congruence|]. reflexivity.
Qed.

Lemma probe_row_by_body_witness :
  perform_pingdom_check world_empty_result "key" 101 "Example" "example.com"
  = Ok ("example.com"%string,
        [PStr "Example"; PStr "example.com"; PStr "No result returned";
         PStr "N/A"; PStr "N/A"; PStr "N/A"; PInt 101]) /\
  perform_pingdom_check world_status_only "key" 101 "Example" "example.com"
  = Ok ("example.com"%string,
        [PStr "Example"; PStr "example.com"; PStr "down";
         PStr "N/A"; PStr "N/A"; PStr "N/A"; PInt 101]).
Proof.
  split.
  - apply (proj1 (probe_row_by_body world_empty_result "key" 101 "Example"
                    "example.com" [("result"%string, PDict [])] eq_refl)).
    reflexivity.
  - apply (proj2 (probe_row_by_body world_status_only "key" 101 "Example"
                    "example.com"
                    [("result"%string, PDict [("status"%string, PStr "down")])]
                    eq_refl)
             [("status"%string, PStr "down")] eq_refl).
    discriminate.
Defined.

(** ** Rows and lanes *)

(** X8.  A row lines up with the header of the report: it has as many cells
    as the header has columns; the name is in the first, the hostname both
    under "Target URL" and under "Hostname", the id of the check in the
    seventh, and the last four are strings, the last of them the path the
    tracer returned. *)
Theorem row_matches_header (w : World) (api_key : string) (check : HostCheck) :
  probe_ok (probe_reply w api_key (hostname check)) = true ->
  exists row a c n path,
    combined_result w api_key check = Ok row /\
    List.length row = List.length csv_header /\
    nth 0 row PNone = PStr (check_name check) /\
    nth 1 row PNone = PStr (hostname check) /\
    nth 6 row PNone = PInt (check_id check) /\
    nth 7 row PNone = PStr (hostname check) /\
    skipn 8 row = [PStr a; PStr c; PStr n; PStr path] /\
    fst (trace_redirects w (hostname check)) = Ok path.
Proof.
  intros Hok.
  destruct (combined_result_ok w api_key check Hok)
    as (cells & d & Hp & Hlen & _ & Hpath & Hrow).
  pose proof (probe_call_outcomes w api_key (check_id check) (check_name check)
                (hostname check)) as Hcells.
  rewrite Hp in Hcells. destruct Hcells as (_ & _ & _ & H0 & H1 & H6).
  do 8 (destruct cells as [|? cells]; try discriminate Hlen).
  cbn in H0, H1, H6. subst.
  eexists _, (A_Records d), (CNAME_Records d), (NS_Records d), (Redirect_Path d).
  split; [exact Hrow|]. cbn. auto 10.
Qed.

Lemma row_matches_header_witness :
  exists row a c n path,
    combined_result world_301 "key" example_check = Ok row /\
    List.length row = List.length csv_header /\
    nth 0 row PNone = PStr "Example" /\
    nth 1 row PNone = PStr "example.com" /\
    nth 6 row PNone = PInt 101 /\
    nth 7 row PNone = PStr "example.com" /\
    skipn 8 row = [PStr a; PStr c; PStr n; PStr path] /\
    fst (trace_redirects world_301 "example.com") = Ok path.
Proof.
  apply (row_matches_header world_301 "key" example_check). reflexivity.
Defined.




(** ** More on the partition *)

Lemma nth_error_make_batches (n : nat) (checks : list HostCheck) (i : nat)
  (batch : list HostCheck) :
  nth_error (make_batches n checks) i = Some batch ->
  i < List.length (make_batches n checks) /\
  batch = slice checks (i * batch_size n checks)
            (i * batch_size n checks + batch_size n checks).
Proof.
  intros Hi. split; [apply nth_error_Some; congruence|].
  unfold make_batches, range_step in Hi. cbv zeta in Hi.
  rewrite !nth_error_map, nth_error_seq in Hi.
  destruct (_ <? _)%nat; cbn in Hi; [|discriminate].
  injection Hi as <-. reflexivity.
Qed.

Lemma length_slice {A : Type} (l : list A) (i width : nat) :
  List.length (slice l i (i + width)) = Nat.min width (List.length l - i).
Proof.
  unfold slice. rewrite length_firstn, length_skipn. f_equal. lia.
Qed.

(** X10.  No batch is empty and none is longer than the batch size; every
    batch but the last has exactly the batch size. *)
Theorem batches_are_filled (n : nat) (checks : list HostCheck) :
  0 < n ->
  forall i batch,
    nth_error (make_batches n checks) i = Some batch ->
    1 <= List.length batch <= batch_size n checks /\
    (S i < List.length (make_batches n checks) ->
     List.length batch = batch_size n checks).
Proof.
  intros Hn i batch Hi.
  destruct (nth_error_make_batches n checks i batch Hi) as [Hlt ->].
  rewrite length_slice.
  unfold make_batches, range_step in Hlt |- *. cbv zeta in Hlt |- *.
  rewrite !length_map, length_seq in Hlt |- *.
  set (b := batch_size n checks) in *. set (L := List.length checks) in *.
  assert (Hb : 0 < b) by (unfold b, batch_size; lia).
  pose proof (Nat.Div0.mul_div_le (L + b - 1) b) as Hle.
  set (k := (L + b - 1) / b) in *.
  split; [|intros Hnext]; nia.
Qed.

Lemma batches_are_filled_witness :
  1 <= List.length [mkHostCheck 1 "one" "one.example.com";
                    mkHostCheck 2 "two" "two.example.com"]
  <= batch_size 2 three_checks /\
  List.length [mkHostCheck 1 "one" "one.example.com";
               mkHostCheck 2 "two" "two.example.com"]
  = batch_size 2 three_checks.
Proof.
  destruct (batches_are_filled 2 three_checks ltac:(lia) 0
              [mkHostCheck 1 "one" "one.example.com";
               mkHostCheck 2 "two" "two.example.com"] eq_refl) as [Hlen Hfull].
  split; [exact Hlen|]. apply Hfull. cbn. lia.
Defined.

Lemma unit_slices {A : Type} (l : list A) :
  map (fun i => slice l i (i + 1)) (seq 0 (List.length l)) = map (fun c => [c]) l.
Proof.
  induction l as [|a l IH]; [reflexivity|].
  cbn [List.length seq map]. f_equal.
  rewrite <- seq_shift, map_map, <- IH. apply map_ext. intros i.
  unfold slice. cbn [skipn]. reflexivity.
Qed.

(** X11.  With fewer checks than workers the batch size is 1: every check is
    alone in its batch, in the order of the list, so no two checks are ever
    processed one after the other in the same lane. *)
Theorem fewer_checks_than_workers (n : nat) (checks : list HostCheck) :
  List.length checks < n ->
  batch_size n checks = 1 /\
  make_batches n checks = map (fun check => [check]) checks.
Proof.
  intros Hlt.
  assert (Hb : batch_size n checks = 1).
  { unfold batch_size. rewrite Nat.div_small by assumption. reflexivity. }
  split; [assumption|].
  unfold make_batches, range_step. rewrite Hb. cbv zeta.
  replace (List.length checks + 1 - 1) with (List.length checks) by lia.
  rewrite Nat.div_1_r, map_map, <- unit_slices.
  apply map_ext. intros i. rewrite Nat.mul_1_r. reflexivity.
Qed.

Lemma fewer_checks_than_workers_witness :
  batch_size max_workers three_checks = 1 /\
  make_batches max_workers three_checks
  = [[mkHostCheck 1 "one" "one.example.com"];
     [mkHostCheck 2 "two" "two.example.com"];
     [mkHostCheck 3 "three" "three.example.com"]].
Proof.
  apply (fewer_checks_than_workers max_workers three_checks).
  unfold max_workers. cbn. lia.
Defined.

(** ** The run as a whole *)

(** X12.  When the list of checks cannot be retrieved, the failure is
    printed, the list is taken to be empty, and [main] stops as for an
    account without checks: nothing is probed, no file is written, nothing
    is raised. *)
Theorem retrieval_failure_stops_main (w : World) (api_key : string)
  (target_urls : list string) (e : string) :
  checks_reply w api_key = ChecksFail e ->
  retrieve_pingdom_checks w api_key
  = ([("Failed to retrieve Pingdom checks: " ++ e)%string], []) /\
  main w api_key target_urls
  = Ok (mkOutcome [("Failed to retrieve Pingdom checks: " ++ e)%string;
                   "No Pingdom checks found."%string] 0 None).
Proof.
  intros Hreply. unfold main, retrieve_pingdom_checks. rewrite Hreply.
  split; reflexivity.
Qed.

Lemma retrieval_failure_stops_main_witness :
  main world_200 "key" ["example.com"%string]
  = Ok (mkOutcome ["Failed to retrieve Pingdom checks: not used"%string;
                   "No Pingdom checks found."%string] 0 None).
Proof.
  apply (proj2 (retrieval_failure_stops_main world_200 "key" ["example.com"%string]
                  "not used" eq_refl)).
Defined.




Lemma sort_by_in_order {A : Type} (finish : nat -> nat) :
  (forall i j, i <= j -> finish i <= finish j) ->
  forall (l : list A) (start : nat),
    fold_right (insert_by finish) [] (combine (seq start (List.length l)) l)
    = combine (seq start (List.length l)) l.
Proof.
  intros Hmono. induction l as [|a l IH]; intros start; [reflexivity|].
  cbn [List.length seq combine fold_right]. rewrite IH.
  destruct l as [|b l]; [reflexivity|].
  cbn [List.length seq combine insert_by fst].
  pose proof (Hmono start (S start) ltac:(lia)) as Hle.
  apply Nat.leb_le in Hle. rewrite Hle. reflexivity.
Qed.

(** X14.  When the lanes finish in the order in which they were submitted,
    the merged rows are in the order of the checks. *)
Theorem rows_in_submission_order (w : World) (api_key : string)
  (checks : list HostCheck) :
  (forall i j, i <= j -> finish_time w i <= finish_time w j) ->
  checks_ok w api_key checks ->
  run_lanes w api_key checks = Ok (map (row_of w api_key) checks).
Proof.
  intros Hmono Hok. unfold run_lanes, as_completed.
  rewrite (sort_by_in_order (finish_time w) Hmono), map_snd_combine_seq.
  rewrite merge_rows.
  - cbn [app]. rewrite <- concat_map, make_batches_concat. reflexivity.
  - intros batch Hb check Hc. apply Hok.
    rewrite <- (make_batches_concat max_workers checks).
    apply in_concat. exists batch. split; assumption.
Qed.

Lemma rows_in_submission_order_witness :
  run_lanes world_probe_timeout "key" three_checks
  = Ok (map (row_of world_probe_timeout "key") three_checks).
Proof.
  apply (rows_in_submission_order world_probe_timeout "key" three_checks).
  - intros i j Hij. exact Hij.
  - intros check Hin. reflexivity.
Defined.

(** ** The list of targets typed in *)

Section Split.

Variable sep : ascii.

Lemma split_char_cons (s : string) :
  exists piece pieces, split_char sep s = piece :: pieces.
Proof.
  destruct s as [|c s]; cbn; [eauto|].
  destruct (Ascii.eqb c sep); [eauto|].
  destruct (split_char sep s); eauto.
Qed.

Lemma length_split_char (s : string) :
  List.length (split_char sep s) = S (occurrences sep s).
Proof.
  induction s as [|c s IH]; [reflexivity|]. cbn.
  destruct (Ascii.eqb c sep); cbn; [now rewrite IH|].
  destruct (split_char sep s); cbn in *; congruence.
Qed.

Lemma split_char_pieces (s : string) :
  Forall (fun piece => occurrences sep piece = 0) (split_char sep s).
Proof.
  induction s as [|c s IH]; cbn; [repeat constructor|].
  destruct (Ascii.eqb c sep) eqn:Hc; [constructor; [reflexivity | assumption]|].
  destruct (split_char sep s) as [|piece pieces].
  - repeat constructor. cbn. now rewrite Hc.
  - inversion IH as [|? ? Hp Hps]; subst. constructor; [|assumption].
    cbn. now rewrite Hc.
Qed.

Lemma join_split_char (s : string) :
  String.concat (String sep EmptyString) (split_char sep s) = s.
Proof.
  induction s as [|c s IH]; [reflexivity|]. cbn [split_char].
  destruct (split_char_cons s) as (piece & pieces & Hs). rewrite Hs in IH |- *.
  destruct (Ascii.eqb_spec c sep) as [->|Hne].
  - change (String sep (String.concat (String sep EmptyString) (piece :: pieces))
            = String sep s).
    now rewrite IH.
  - destruct pieces as [|piece' pieces].
    + cbn in IH |- *. now rewrite IH.
    + change (String c (piece ++ String sep
                          (String.concat (String sep EmptyString) (piece' :: pieces)))
              = String c s).
      change (piece ++ String sep
                (String.concat (String sep EmptyString) (piece' :: pieces)) = s)%string
        in IH.
      now rewrite IH.
Qed.

Lemma split_char_free (s : string) :
  occurrences sep s = 0 -> split_char sep s = [s].
Proof.
  induction s as [|c s IH]; [reflexivity|]. cbn.
  destruct (Ascii.eqb c sep); [discriminate|]. cbn. intros H.
  now rewrite (IH H).
Qed.

Lemma split_char_app (s rest : string) :
  occurrences sep s = 0 ->
  split_char sep (s ++ String sep rest) = s :: split_char sep rest.
Proof.
  induction s as [|c s IH]; cbn.
  - intros _. now rewrite Ascii.eqb_refl.
  - destruct (Ascii.eqb c sep); [discriminate|]. cbn. intros H.
    now rewrite (IH H).
Qed.

Lemma split_char_join (pieces : list string) :
  pieces <> [] ->
  Forall (fun piece => occurrences sep piece = 0) pieces ->
  split_char sep (String.concat (String sep EmptyString) pieces) = pieces.
Proof.
  induction pieces as [|piece pieces IH]; [congruence|].
  intros _ Hall. inversion Hall as [|? ? Hp Hps]; subst.
  destruct pieces as [|piece' pieces].
  - cbn. now apply split_char_free.
  - change (String.concat (String sep EmptyString) (piece :: piece' :: pieces))
      with (piece ++ String sep (String.concat (String sep EmptyString)
                                   (piece' :: pieces)))%string.
    rewrite split_char_app by assumption.
    rewrite IH; [reflexivity | discriminate | assumption].
Qed.

Lemma occurrences_lstrip (s : string) :
  occurrences sep (lstrip s) <= occurrences sep s.
Proof.
  induction s as [|c s IH]; cbn; [lia|].
  destruct (py_isspace c); cbn; lia.
Qed.

Lemma occurrences_rstrip (s : string) :
  occurrences sep (rstrip s) <= occurrences sep s.
Proof.
  induction s as [|c s IH]; cbn; [lia|].
  destruct (rstrip s) as [|c' kept]; cbn in *.
  - destruct (py_isspace c); cbn; lia.
  - lia.
Qed.

End Split.

Lemma lstrip_no_leading (s : string) : starts_with_space (lstrip s) = false.
Proof.
  induction s as [|c s IH]; [reflexivity|]. cbn.
  destruct (py_isspace c) eqn:Hc; [assumption | cbn; assumption].
Qed.

Lemma rstrip_no_trailing (s : string) : ends_with_space (rstrip s) = false.
Proof.
  induction s as [|c s IH]; [reflexivity|]. cbn.
  destruct (rstrip s) as [|c' kept].
  - destruct (py_isspace c) eqn:Hc; [reflexivity | cbn; assumption].
  - exact IH.
Qed.

Lemma rstrip_keeps_start (s : string) :
  starts_with_space s = false -> starts_with_space (rstrip s) = false.
Proof.
  destruct s as [|c s]; [reflexivity|]. cbn. intros Hc.
  destruct (rstrip s); [rewrite Hc|]; cbn; assumption.
Qed.

Lemma lstrip_fixed (s : string) : starts_with_space s = false -> lstrip s = s.
Proof.
  destruct s as [|c s]; [reflexivity|]. cbn. now intros ->.
Qed.

Lemma rstrip_fixed (s : string) : ends_with_space s = false -> rstrip s = s.
Proof.
  induction s as [|c s IH]; [reflexivity|]. cbn.
  destruct s as [|c' s'].
  - cbn. now intros ->.
  - intros H. rewrite (IH H). reflexivity.
Qed.

(** X15.  The line typed in is cut at every comma: there is one target more
    than there are commas, so at least one, the empty one on an empty line,
    and putting commas between the pieces gives the line back. *)
Theorem targets_are_counted_by_commas (target_urls_input : string) :
  List.length (parse_target_urls target_urls_input)
  = S (occurrences "," target_urls_input) /\
  String.concat "," (split_char "," target_urls_input) = target_urls_input.
Proof.
  unfold parse_target_urls. rewrite length_map. split.
  - apply length_split_char.
  - apply join_split_char.
Qed.

(** X16.  No target read from the line holds a comma, and none begins or
    ends with white space. *)
Theorem targets_are_trimmed (target_urls_input : string) :
  Forall (fun target =>
            occurrences "," target = 0 /\
            starts_with_space target = false /\
            ends_with_space target = false)
         (parse_target_urls target_urls_input).
Proof.
  unfold parse_target_urls. apply Forall_map.
  eapply Forall_impl; [|apply (split_char_pieces "," target_urls_input)].
  intros piece Hfree. cbv beta in Hfree. unfold strip. repeat split.
  - pose proof (occurrences_rstrip "," (lstrip piece)).
    pose proof (occurrences_lstrip "," piece). lia.
  - apply rstrip_keeps_start, lstrip_no_leading.
  - apply rstrip_no_trailing.
Qed.

(** X17.  Targets that hold no comma, written on one line with commas in
    between, are read back with the white space around each of them taken
    off; when they neither begin nor end with white space, they are read
    back as they are. *)
Theorem targets_round_trip (targets : list string) :
  targets <> [] ->
  Forall (fun target => occurrences "," target = 0) targets ->
  parse_target_urls (join "," targets) = map strip targets /\
  (Forall (fun target => starts_with_space target = false /\
                         ends_with_space target = false) targets ->
   parse_target_urls (join "," targets) = targets).
Proof.
  intros Hne Hfree. unfold parse_target_urls, join.
  rewrite (split_char_join "," targets Hne Hfree). split; [reflexivity|].
  intros Htrim. rewrite <- (map_id targets) at 2. apply map_ext_in.
  intros target Hin.
  destruct (proj1 (Forall_forall _ _) Htrim target Hin) as [Hs He].
  unfold strip. rewrite (lstrip_fixed _ Hs). apply rstrip_fixed. assumption.
Qed.

Lemma targets_round_trip_witness :
  parse_target_urls (join "," [" example.com"%string; "other.example.org "%string])
  = ["example.com"%string; "other.example.org"%string] /\
  parse_target_urls (join "," ["example.com"%string; "other.example.org"%string])
  = ["example.com"%string; "other.example.org"%string].
Proof.
  split.
  - rewrite (proj1 (targets_round_trip
                      [" example.com"%string; "other.example.org "%string]
                      ltac:(discriminate)
                      ltac:(repeat constructor))).
    reflexivity.
  - apply (proj2 (targets_round_trip
                    ["example.com"%string; "other.example.org"%string]
                    ltac:(discriminate)
                    ltac:(repeat constructor))).
    repeat constructor.
Defined.

(** ** Lanes, once more *)

Lemma for_each_accumulates (w : World) (api_key : string) (batch : list HostCheck) :
  forall results,
    for_each (process_check w api_key) batch results
    = rows <- for_each (process_check w api_key) batch [] ;; Ok (results ++ rows).
Proof.
  induction batch as [|check batch IH]; intros results; cbn.
  - now rewrite app_nil_r.
  - unfold process_check at 1 3.
    destruct (combined_result w api_key check) as [r|e]; [|reflexivity].
    cbn [bind app]. rewrite (IH (results ++ [r])), (IH [r]).
    destruct (for_each (process_check w api_key) batch []) as [rows|e'];
      [|reflexivity].
    cbn. now rewrite <- app_assoc.
Qed.

Lemma for_each_app {S A : Type} (body : S -> A -> result S) (l1 l2 : list A) :
  forall s,
    for_each body (l1 ++ l2) s = s' <- for_each body l1 s ;; for_each body l2 s'.
Proof.
  induction l1 as [|a l1 IH]; intros s; cbn; [reflexivity|].
  destruct (body s a) as [s'|e]; cbn; [apply IH | reflexivity].
Qed.

(** X18.  A lane over two batches put end to end does what the lane over the
    first and then the lane over the second do: it raises what the first of
    them to fail raises, and otherwise returns the rows of the first
    followed by the rows of the second. *)
Theorem lane_of_appended_batches (w : World) (api_key : string)
  (batch1 batch2 : list HostCheck) :
  process_hostname_batch w api_key (batch1 ++ batch2)
  = rows1 <- process_hostname_batch w api_key batch1 ;;
    rows2 <- process_hostname_batch w api_key batch2 ;;
    Ok (rows1 ++ rows2).
Proof.
  unfold process_hostname_batch. rewrite for_each_app.
  destruct (for_each (process_check w api_key) batch1 []) as [rows1|e];
    [|reflexivity].
  cbn [bind]. apply for_each_accumulates.
Qed.

(** X19.  When the probe request fails, the row still carries the DNS fields
    and the redirect path of the host: it is the name, the hostname,
    ["Error: <detail>"], three times ["N/A"], the id, and then the hostname
    and the four fields of [check_redirects_and_dns]. *)
Theorem probe_failure_row (w : World) (api_key : string) (check : HostCheck)
  (detail : string) :
  probe_reply w api_key (hostname check) = ProbeFail detail ->
  exists d,
    check_redirects_and_dns w (hostname check) = Ok (hostname check, d) /\
    combined_result w api_key check
    = Ok [PStr (check_name check); PStr (hostname check);
          PStr ("Error: " ++ detail)%string; PStr "N/A"; PStr "N/A"; PStr "N/A";
          PInt (check_id check); PStr (hostname check); PStr (A_Records d);
          PStr (CNAME_Records d); PStr (NS_Records d); PStr (Redirect_Path d)].
Proof.
  intros Hreply.
  destruct (check_redirects_and_dns_total w (hostname check)) as (path & _ & Hd).
  eexists. split; [exact Hd|].
  unfold combined_result, perform_pingdom_check, probe_json.
  rewrite Hreply. cbn [bind except_RequestException]. rewrite Hd. reflexivity.
Qed.

Lemma probe_failure_row_witness :
  exists d,
    check_redirects_and_dns world_probe_timeout "example.com"
    = Ok ("example.com"%string, d) /\
    combined_result world_probe_timeout "key" example_check
    = Ok [PStr "Example"; PStr "example.com";
          PStr "Error: Read timed out. (read timeout=30)"; PStr "N/A"; PStr "N/A";
          PStr "N/A"; PInt 101; PStr "example.com"; PStr (A_Records d);
          PStr (CNAME_Records d); PStr (NS_Records d); PStr (Redirect_Path d)].
Proof.
  apply (probe_failure_row world_probe_timeout "key" example_check
           "Read timed out. (read timeout=30)").
  reflexivity.
Defined.

Lemma filter_without_match (target_urls : list string) (checks : list HostCheck) :
  (forall check, In check checks -> ~ In (hostname check) target_urls) ->
  filter (fun check => existsb (String.eqb (hostname check)) target_urls) checks = [].
Proof.
  induction checks as [|check checks IH]; intros Hnone; [reflexivity|]. cbn.
  destruct (existsb (String.eqb (hostname check)) target_urls) eqn:Hmatch.
  - exfalso. apply existsb_exists in Hmatch. destruct Hmatch as (t & Ht & Heq).
    apply String.eqb_eq in Heq. apply (Hnone check (or_introl eq_refl)).
    now rewrite Heq.
  - apply IH. intros c Hc. apply Hnone. now right.
Qed.

(** X20.  When the account has checks but none has one of the targets as its
    hostname, as with an empty list of targets, no batch is submitted and the
    file written holds the header alone. *)
Theorem report_without_match (w : World) (api_key : string)
  (target_urls : list string) (checks : list HostCheck) :
  checks_reply w api_key = ChecksJson checks ->
  checks <> [] ->
  (forall check, In check checks -> ~ In (hostname check) target_urls) ->
  main w api_key target_urls
  = Ok (mkOutcome
          [("Results have been written to Hostname_results_" ++ now w
            ++ "_UTC.csv")%string]
          0
          (Some (("Hostname_results_" ++ now w ++ "_UTC.csv")%string, [csv_header]))).
Proof.
  intros Hreply Hne Hnone.
  assert (Hret : retrieve_pingdom_checks w api_key = ([], checks)).
  { unfold retrieve_pingdom_checks. now rewrite Hreply. }
  rewrite (main_without_match w api_key target_urls); rewrite Hret; cbn [fst snd].
  - reflexivity.
  - assumption.
  - apply filter_without_match. assumption.
Qed.

Lemma report_without_match_witness :
  main world_listed "key" []
  = Ok (mkOutcome
          ["Results have been written to Hostname_results_2024-01-01_00-00-00_UTC.csv"%string]
          0
          (Some ("Hostname_results_2024-01-01_00-00-00_UTC.csv"%string, [csv_header]))).
Proof.
  apply (report_without_match world_listed "key" []
           [mkHostCheck 101 "Example" "example.com"] eq_refl).
  - discriminate.
  - intros check _ [].
Defined.
